(** * hoshi: browsing GitHub stars from the terminal

    A shallow embedding of [main.go]: the paginated retrieval loop of [run]
    with [getStarsPage], the description truncation of [run], the sorter
    [sortItemOrder] and the [searcher] closure handed to the prompt.

    Conventions.
    - A Go [string] is a sequence of bytes: [len], slicing, [+], [==] and [<]
      act on bytes, and so does the model (Rocq's [string] of [ascii]).
    - A Go [int] is a 64-bit two's complement integer, carried in [Z] with the
      wrap-around written out ([wrap_int]).
    - A run-time panic and [log.Fatal] are results of their own, never
      silently dropped.
    - Library code that is not part of the repository ([sort.Slice],
      [strings.ToLower], [fuzzy.Match]) enters through its documented
      contract, as a parameter or as a small executable model. *)

From Stdlib Require Import ZArith Lia Bool Ascii String.
From Stdlib Require Import Permutation Sorted OrdersEx.
From stdpp Require Import base list.

Local Open Scope string_scope.
Local Open Scope list_scope.
Local Open Scope Z_scope.

(** ** The Go runtime: machine integers, strings, slices *)

Module Go.

(** [int] on a 64-bit platform: results of arithmetic wrap around. *)
Definition min_int : Z := - 2 ^ 63.
Definition max_int : Z := 2 ^ 63 - 1.

Definition wrap_int (z : Z) : Z := (z + 2 ^ 63) mod 2 ^ 64 - 2 ^ 63.

Definition is_int (z : Z) : Prop := min_int <= z <= max_int.
Definition is_uint (z : Z) : Prop := 0 <= z < 2 ^ 64.

(** The conversion [int(u)] of a [uint]. *)
Definition int_of_uint (u : Z) : Z := wrap_int u.

Definition sub (a b : Z) : Z := wrap_int (a - b).
Definition add (a b : Z) : Z := wrap_int (a + b).

(** [len(s)] of a string: its number of bytes. *)
Definition len (s : string) : Z := Z.of_nat (String.length s).

(** [s[:hi]]: panics ([None]) unless [0 <= hi <= len(s)]. *)
Definition slice_to (s : string) (hi : Z) : option string :=
  if (hi <? 0) || (len s <? hi) then None
  else Some (substring 0 (Z.to_nat hi) s).

(** [strings.HasSuffix], used to state where a string ends. *)
Fixpoint has_suffix (s suffix : string) : bool :=
  if (s =? suffix)%string then true
  else match s with
       | EmptyString => false
       | String _ s' => has_suffix s' suffix
       end.

(** What a call can end in besides returning: [log.Fatal] exits the
    process, a run-time panic unwinds it. *)
Inductive result (A : Type) : Type :=
| Ret (a : A)
| Fatal
| Panic.
Arguments Ret {A} a.
Arguments Fatal {A}.
Arguments Panic {A}.

Definition bind {A B} (m : result A) (k : A -> result B) : result B :=
  match m with
  | Ret a => k a
  | Fatal => Fatal
  | Panic => Panic
  end.

Lemma wrap_int_id z : is_int z -> wrap_int z = z.
Proof.
  unfold is_int, min_int, max_int, wrap_int. intros Hz.
  rewrite Z.mod_small; lia.
Qed.

Lemma len_nonneg s : 0 <= len s.
Proof. unfold len. lia. Qed.

Lemma len_append s t : len (s ++ t)%string = len s + len t.
Proof.
  unfold len. induction s as [|c s IH]; simpl; [lia|].
  simpl in IH. lia.
Qed.

End Go.

(** Side conditions "this value is an [int]". *)
Ltac int_range := unfold Go.is_int, Go.min_int, Go.max_int in *; lia.

Notation "'let!' x ':=' m 'in' k" := (Go.bind m (fun x => k))
  (at level 10, x name, m at level 100, k at level 200).

(** ** Data model *)

(** [time.Time] as decoded from JSON: an instant, seconds and nanoseconds
    (no monotonic clock reading). *)
Record Time : Type := mkTime { sec : Z; nsec : Z }.

(** [t.After(u)]. *)
Definition After (t u : Time) : bool :=
  (sec u <? sec t) || ((sec t =? sec u) && (nsec u <? nsec t)).

Record StarOwner : Type := mkOwner { Login : string }.
Record StarLicense : Type := mkLicense { LicenseName : string }.

(** [Star]: the fields of the API payload that [run] and its templates read.
    The other fields of the Go struct are carried along and never inspected. *)
Record Star : Type := mkStar {
  ID : Z;
  Name : string;
  FullName : string;
  Owner : StarOwner;
  HTMLURL : string;
  Description : string;
  CreatedAt : Time;
  UpdatedAt : Time;
  Homepage : string;
  StargazersCount : Z;
  Language : string;
  License : StarLicense
}.

Definition set_Description (d : string) (s : Star) : Star :=
  {| ID := ID s; Name := Name s; FullName := FullName s; Owner := Owner s;
     HTMLURL := HTMLURL s; Description := d; CreatedAt := CreatedAt s;
     UpdatedAt := UpdatedAt s; Homepage := Homepage s;
     StargazersCount := StargazersCount s; Language := Language s;
     License := License s |}.

(** [Option]: the command line flags. *)
Record Option : Type := mkOption {
  Order : string;
  Reverse : bool;
  Version : bool
}.

(** ** Renderer adapter: the truncation loop of [run] *)

(** One iteration of
[[
  if len(stars[i].Description) > int(terminalWidth)-22 {
      p := &stars[i]
      p.Description = p.Description[:int(terminalWidth)-25] + "..."
  }
]]
    on the description alone; [width] is [int(terminalWidth)]. *)
Definition truncateDescription (width : Z) (d : string) : Go.result string :=
  if Go.sub width 22 <? Go.len d then
    match Go.slice_to d (Go.sub width 25) with
    | Some cut => Go.Ret (cut ++ "...")%string
    | None => Go.Panic
    end
  else Go.Ret d.

Definition truncateStar (width : Z) (s : Star) : Go.result Star :=
  let! d := truncateDescription width (Description s) in
  Go.Ret (set_Description d s).

(** The loop [for i := 0; i < len(stars); i++] over the slice, in order. *)
Fixpoint truncateAll (width : Z) (stars : list Star) : Go.result (list Star) :=
  match stars with
  | [] => Go.Ret []
  | s :: rest =>
      let! s' := truncateStar width s in
      let! rest' := truncateAll width rest in
      Go.Ret (s' :: rest')
  end.

(** ** Library contracts used by the sorter *)

(** What Go's [sort] package asks of a [less] function: a strict ordering that
    is transitive, and whose negation is transitive too ("if both Less(i, j)
    and Less(j, k) are false, then Less(i, k) must be false as well"). *)
Record StrictWeakOrder {A : Type} (less : A -> A -> bool) : Prop := {
  swo_irrefl : forall a, less a a = false;
  swo_trans : forall a b c, less a b = true -> less b c = true -> less a c = true;
  swo_negtrans : forall a b c, less a b = false -> less b c = false -> less a c = false
}.

(** The result of a sort by [less]: no element is less than one before it. *)
Definition sorted_by {A : Type} (less : A -> A -> bool) : list A -> Prop :=
  StronglySorted (fun a b => less b a = false).

(** Two elements tie under [less] when neither is less than the other. *)
Definition ties {A : Type} (less : A -> A -> bool) (a b : A) : Prop :=
  less a b = false /\ less b a = false.

#[global] Instance ties_dec {A : Type} (less : A -> A -> bool) (a b : A) :
  Decision (ties less a b).
Proof. unfold ties. apply _. Defined.

(** Stability of [out] against [l]: the elements tying with any given [x]
    come in the same order in both. *)
Definition stable {A : Type} (less : A -> A -> bool) (l out : list A) : Prop :=
  forall x, filter (ties less x) out = filter (ties less x) l.

(** [sort.Slice(x, less)] by its documentation: it sorts the slice by [less]
    and keeps its elements; "the sort is not guaranteed to be stable: equal
    elements may be reversed from their original order". [less] receives
    indices in Go and reads the slice being sorted; here it receives the two
    elements. *)
Class SliceSort : Type := {
  sort_Slice : forall {A : Type}, (A -> A -> bool) -> list A -> list A;
  sort_Slice_Permutation :
    forall (A : Type) (less : A -> A -> bool) (l : list A),
      Permutation l (sort_Slice less l);
  sort_Slice_sorted :
    forall (A : Type) (less : A -> A -> bool), StrictWeakOrder less ->
      forall l : list A, sorted_by less (sort_Slice less l)
}.

(** ** The program *)

Section Hoshi.

(** [strings.ToLower]; its Unicode tables are not part of the repository. *)
Variable ToLower : string -> string.

Context {slice_sort : SliceSort}.

(** *** Sorter: [sortItemOrder] *)

(** [stars[i], stars[j] = stars[j], stars[i]]: both elements are read, then
    both are written; an index out of range panics. *)
Definition swap {A : Type} (i j : nat) (stars : list A) : Go.result (list A) :=
  match stars !! i, stars !! j with
  | Some x, Some y => Go.Ret (<[i:=y]> (<[j:=x]> stars))
  | _, _ => Go.Panic
  end.

(** The loop of [reversed],
[[
  for i := len(stars)/2 - 1; i >= 0; i-- {
      j := len(stars) - 1 - i
      stars[i], stars[j] = stars[j], stars[i]
  }
]]
    counted by [k = i + 1]: at [k = 0] the test [i >= 0] fails. *)
Fixpoint reversed_loop {A : Type} (k : nat) (stars : list A)
  : Go.result (list A) :=
  match k with
  | O => Go.Ret stars
  | S i =>
      let j := (length stars - 1 - i)%nat in
      let! stars := swap i j stars in
      reversed_loop i stars
  end.

Definition reversed {A : Type} (stars : list A) : Go.result (list A) :=
  reversed_loop (length stars / 2)%nat stars.

(** The four [less] closures, on the two elements they index. *)
Definition less_author_name (a b : Star) : bool :=
  (ToLower (Login (Owner a)) <? ToLower (Login (Owner b)))%string.

Definition less_created_at (a b : Star) : bool :=
  After (CreatedAt a) (CreatedAt b).

Definition less_repository_name (a b : Star) : bool :=
  (ToLower (Name a) <? ToLower (Name b))%string.

Definition less_updated_at (a b : Star) : bool :=
  After (UpdatedAt a) (UpdatedAt b).

(** The [switch order]: the comparator a key selects, if any. ["added-at"]
    has an empty case, and an unlisted key matches no case. *)
Definition comparator (order : string) : option (Star -> Star -> bool) :=
  if (order =? "added-at")%string then None
  else if (order =? "author-name")%string then Some less_author_name
  else if (order =? "created-at")%string then Some less_created_at
  else if (order =? "repository-name")%string then Some less_repository_name
  else if (order =? "updated-at")%string then Some less_updated_at
  else None.

Definition sortItemOrder (stars : list Star) (order : string) (reverse : bool)
  : Go.result (list Star) :=
  let stars :=
    match comparator order with
    | Some less => sort_Slice less stars
    | None => stars
    end in
  if reverse then reversed stars else Go.Ret stars.

(** *** Page fetcher and aggregator: [getStarsPage] and the loop of [run] *)

(** What the remote end and the decoder produce for one request:
    - [get_err]: [http.Get] returned [err != nil];
    - [read_err]: [ioutil.ReadAll] returned an error (the code drops it);
    - [decoded]: the contents of [stars] after [json.Unmarshal(body, &stars)];
    - [decode_err]: [json.Unmarshal] returned an error (the code drops it). *)
Record PageReply : Type := mkReply {
  get_err : bool;
  read_err : bool;
  decoded : list Star;
  decode_err : bool
}.

(** A reply with any failure in it. *)
Definition failed (r : PageReply) : bool :=
  get_err r || read_err r || decode_err r.

Section Retrieval.

(** The remote source: the reply to [GET /users/{user}/starred?page={n}]. *)
Variable remote : string -> Z -> PageReply.

(** [getStarsPage]: [None] is the nil slice. *)
Definition getStarsPage (user : string) (page : Z)
  : Go.result (option (list Star)) :=
  let r := remote user page in
  if get_err r then Go.Fatal
  else
    let stars := decoded r in
    if (Z.of_nat (length stars) =? 0) then Go.Ret None
    else Go.Ret (Some stars).

(** The loop [for i := 1; ; i++] of [run], with the requests it has made so
    far (page numbers, oldest first). [fuel] bounds the iterations of the
    model only: [None] means the bound was reached. *)
Fixpoint fetchLoop (fuel : nat) (user : string) (i : Z) (stars : list Star)
  (requests : list Z) : option (Go.result (list Star) * list Z) :=
  match fuel with
  | O => None
  | S fuel' =>
      let requests := requests ++ [i] in
      match getStarsPage user i with
      | Go.Ret (Some s) =>
          fetchLoop fuel' user (Go.add i 1) (stars ++ s) requests
      | Go.Ret None => Some (Go.Ret stars, requests)
      | Go.Fatal => Some (Go.Fatal, requests)
      | Go.Panic => Some (Go.Panic, requests)
      end
  end.

Definition fetchAll (fuel : nat) (user : string)
  : option (Go.result (list Star) * list Z) :=
  fetchLoop fuel user 1 [] [].

End Retrieval.

(** *** Fuzzy matcher: the [searcher] closure *)

(** [strings.Replace(s, " ", "", -1)]: every occurrence of the one-byte
    string [" "] is dropped; no other byte is. *)
Fixpoint Replace_spaces (s : string) : string :=
  match s with
  | EmptyString => EmptyString
  | String c s' =>
      if (c =? " ")%char then Replace_spaces s'
      else String c (Replace_spaces s')
  end.

(** Modelled from the spec: [fuzzy.Match] of the fuzzysearch library, which
    is not part of the repository. "The normalized query must be a
    subsequence-match (not necessarily contiguous) of the normalized name":
    each character of [source] is looked for in [target] after the place
    where the previous one was found. A character is a byte here; Go matches
    rune by rune, which is the same on ASCII names such as [owner/name]. *)
Fixpoint Match (source target : string) : bool :=
  match source with
  | EmptyString => true
  | String r1 source' =>
      (fix scan (target : string) : bool :=
         match target with
         | EmptyString => false
         | String r2 target' =>
             if (r1 =? r2)%char then Match source' target'
             else scan target'
         end) target
  end.

(** Both sides of the match go through the same two calls. *)
Definition normalize (s : string) : string :=
  Replace_spaces (ToLower s).

(** [searcher]: [stars[index]] panics when the index is out of range. *)
Definition searcher (stars : list Star) (input : string) (index : Z)
  : Go.result bool :=
  if (index <? 0) || (Z.of_nat (length stars) <=? index) then Go.Panic
  else
    match stars !! Z.to_nat index with
    | None => Go.Panic
    | Some star =>
        let name := Replace_spaces (ToLower (FullName star)) in
        let input := Replace_spaces (ToLower input) in
        Go.Ret (Match input name)
    end.

Definition accepted (r : Go.result bool) : bool :=
  match r with
  | Go.Ret true => true
  | _ => false
  end.

(** The prompt shows the items whose index the searcher accepts, in order. *)
Definition visible (stars : list Star) (input : string) : list nat :=
  List.filter (fun i => accepted (searcher stars input (Z.of_nat i)))
              (seq 0 (length stars)).

(** *** [run], up to the call of the prompt *)

(** What [run] gets from its collaborators. *)
Record Env : Type := mkEnv {
  parse_err : bool;
  opt : Option;
  GithubUser : option string;
  remote : string -> Z -> PageReply;
  terminal_Width : option Z
}.

(** How far [run] gets: a return code before the prompt, or the prompt
    opened on [Items]. *)
Inductive RunResult : Type :=
| Exit (code : Z)
| Prompt (Items : list Star).

Definition run (fuel : nat) (env : Env) : option (Go.result RunResult) :=
  if parse_err env then Some (Go.Ret (Exit 2))
  else if Version (opt env) then Some (Go.Ret (Exit 0))
  else
    match GithubUser env with
    | None => Some Go.Fatal
    | Some user =>
        match fetchAll (remote env) fuel user with
        | None => None
        | Some (Go.Fatal, _) => Some Go.Fatal
        | Some (Go.Panic, _) => Some Go.Panic
        | Some (Go.Ret stars, _) =>
            match terminal_Width env with
            | None => Some (Go.Ret (Exit 1))
            | Some terminalWidth =>
                Some (let! stars :=
                        truncateAll (Go.int_of_uint terminalWidth) stars in
                      let! stars :=
                        sortItemOrder stars (Order (opt env))
                                      (Reverse (opt env)) in
                      Go.Ret (Prompt stars))
            end
        end
    end.

End Hoshi.

(** * The claims, in the words of the specification *)

(** [u] is not later than [t]. *)
Definition Time_le (u t : Time) : Prop :=
  sec u < sec t \/ (sec u = sec t /\ nsec u <= nsec t).

(** [s] is a subsequence of [t]: the characters of [s] occur in [t] in the
    same order, not necessarily next to each other. *)
Inductive Subsequence : string -> string -> Prop :=
| Subsequence_empty (t : string) : Subsequence EmptyString t
| Subsequence_take (c : ascii) (s t : string) :
    Subsequence s t -> Subsequence (String c s) (String c t)
| Subsequence_skip (c : ascii) (s t : string) :
    Subsequence s t -> Subsequence s (String c t).

#[local] Hint Constructors Subsequence : core.

(** The claim C1 as the specification words it: a run of the retrieval loop
    in which some requested page met a failure ends in the fatal exit. *)
Definition FailLoud (remote : string -> Z -> PageReply) (user : string)
  (fuel : nat) : Prop :=
  forall (res : Go.result (list Star)) (requests : list Z),
    fetchAll remote fuel user = Some (res, requests) ->
    (exists k, In k requests /\ failed (remote user k) = true) ->
    res = Go.Fatal.

(** The claim C5 as the specification words it: a result always exists; when
    the description is longer than [W - 22] it is the first [W - 25] bytes
    followed by the marker, at most [W - 22] long; otherwise it is unchanged;
    and it ends in the marker exactly when it was cut. *)
Definition TruncationBoundary (W : Z) (d : string) : Prop :=
  exists out : string,
    truncateDescription W d = Go.Ret out /\
    (W - 22 < Go.len d ->
       out = (substring 0 (Z.to_nat (W - 25)) d ++ "...")%string /\
       Go.len out <= W - 22) /\
    (Go.len d <= W - 22 -> out = d) /\
    (Go.has_suffix out "..." = true <-> W - 22 < Go.len d).

(** The claim C3 as the specification words it, for a given [sort.Slice]:
    under the comparator of the key, the records that tie keep the order
    they had in the input. *)
Definition SortStability (S : SliceSort) (ToLower : string -> string)
  (order : string) (stars : list Star) : Prop :=
  forall less : Star -> Star -> bool,
    comparator ToLower order = Some less ->
    exists out : list Star,
      @sortItemOrder ToLower S stars order false = Go.Ret out /\
      stable less stars out.

(** The decoded contents of page [k] of [user]. *)
Definition page (remote : string -> Z -> PageReply) (user : string) (k : nat)
  : list Star :=
  decoded (remote user (Z.of_nat k)).

(** The normalization as the specification words it: lower-casing, then
    "all internal whitespace" removed (space, tab, line feed, vertical tab,
    form feed, carriage return), where [Replace_spaces] removes the space
    only. *)
Definition is_whitespace (c : ascii) : bool :=
  ((c =? " ") || (c =? "009") || (c =? "010") || (c =? "011") ||
   (c =? "012") || (c =? "013"))%char.

Fixpoint strip_whitespace (s : string) : string :=
  match s with
  | EmptyString => EmptyString
  | String c s' =>
      if is_whitespace c then strip_whitespace s'
      else String c (strip_whitespace s')
  end.

Definition spec_normalize (ToLower : string -> string) (s : string) : string :=
  strip_whitespace (ToLower s).

(** The claim C8 as the specification words it, for the candidate at
    [index]. *)
Definition VisibleIffSubsequence (ToLower : string -> string)
  (stars : list Star) (input : string) (index : nat) : Prop :=
  In index (visible ToLower stars input) <->
  exists star : Star,
    stars !! index = Some star /\
    Subsequence (spec_normalize ToLower input)
                (spec_normalize ToLower (FullName star)).

(** * Sample collaborators, for evaluation on concrete inputs *)

(** Sorts that meet the contract. [insertion_sort true] is the stable
    insertion sort: the elements are inserted from the last to the first, an
    element going before its ties. [Go118_sort_short] is what the [sort]
    package of the Go releases up to 1.18 does on a slice of at most 12
    elements. *)
Section InsertionSort.
Context {A : Type} (less : A -> A -> bool).

Definition goes_before (front : bool) (x y : A) : bool :=
  if front then negb (less y x) else less x y.

Fixpoint insert_sorted (front : bool) (x : A) (l : list A) : list A :=
  match l with
  | [] => [x]
  | y :: l' =>
      if goes_before front x y then x :: y :: l'
      else y :: insert_sorted front x l'
  end.

Fixpoint insertion_sort (front : bool) (l : list A) : list A :=
  match l with
  | [] => []
  | x :: l' => insert_sorted front x (insertion_sort front l')
  end.

(** [insertionSort_func] of the [sort] package: the elements are taken from
    the first to the last, and each moves left past the elements it is less
    than. *)
Definition Go_insertionSort (l : list A) : list A :=
  fold_left (fun sorted x => insert_sorted false x sorted) l [].

(** The pass
[[
  for i := a + 6; i < b; i++ {
      if data.Less(i, i-6) { data.Swap(i, i-6) }
  }
]]
    on a slice of at most 12 elements: element [i] of the back half meets
    element [i - 6] of the front half. *)
Fixpoint gap6_exchange (front back : list A) : list A * list A :=
  match front, back with
  | x :: front', y :: back' =>
      let (f, b) := gap6_exchange front' back' in
      if less y x then (y :: f, x :: b) else (x :: f, y :: b)
  | _, _ => (front, back)
  end.

Definition Go118_sort_short (l : list A) : list A :=
  let (f, b) := gap6_exchange (take 6 l) (drop 6 l) in
  Go_insertionSort (f ++ b).

Lemma insert_sorted_Permutation front x l :
  Permutation (x :: l) (insert_sorted front x l).
Proof.
  induction l as [|y l IH]; simpl; [reflexivity|].
  destruct (goes_before front x y); [reflexivity|].
  rewrite perm_swap. now constructor.
Qed.

Lemma insertion_sort_Permutation front l :
  Permutation l (insertion_sort front l).
Proof.
  induction l as [|x l IH]; simpl; [reflexivity|].
  rewrite <- insert_sorted_Permutation. now constructor.
Qed.

Hypothesis less_swo : StrictWeakOrder less.

Lemma goes_before_true front x y :
  goes_before front x y = true -> less y x = false.
Proof.
  destruct front; simpl; intros H.
  - now apply negb_true_iff in H.
  - destruct (less y x) eqn:E; [|reflexivity].
    pose proof (swo_trans less less_swo _ _ _ H E) as C.
    rewrite (swo_irrefl less less_swo) in C. discriminate.
Qed.

Lemma goes_before_false front x y :
  goes_before front x y = false -> less x y = false.
Proof.
  destruct front; simpl; intros H; [|exact H].
  apply negb_false_iff in H.
  destruct (less x y) eqn:E; [|reflexivity].
  pose proof (swo_trans less less_swo _ _ _ H E) as C.
  rewrite (swo_irrefl less less_swo) in C. discriminate.
Qed.

Lemma insert_sorted_sorted front x l :
  sorted_by less l -> sorted_by less (insert_sorted front x l).
Proof.
  unfold sorted_by. induction 1 as [|y l Hl IH Hy]; simpl.
  - repeat constructor.
  - destruct (goes_before front x y) eqn:E.
    + pose proof (goes_before_true _ _ _ E) as Hxy.
      constructor; [now constructor|].
      constructor; [exact Hxy|].
      eapply Forall_impl; [exact Hy|]. simpl. intros z Hz.
      exact (swo_negtrans less less_swo _ _ _ Hz Hxy).
    + pose proof (goes_before_false _ _ _ E) as Hyx.
      constructor; [exact IH|].
      eapply Permutation_Forall; [apply insert_sorted_Permutation|].
      now constructor.
Qed.

Lemma insertion_sort_sorted front l : sorted_by less (insertion_sort front l).
Proof.
  induction l as [|x l IH]; simpl.
  - constructor.
  - now apply insert_sorted_sorted.
Qed.

Lemma fold_insert_sorted (l sorted : list A) :
  sorted_by less sorted ->
  sorted_by less
    (fold_left (fun sorted x => insert_sorted false x sorted) l sorted).
Proof.
  revert sorted. induction l as [|x l IH]; intros sorted H; simpl.
  - exact H.
  - apply IH. now apply insert_sorted_sorted.
Qed.

Lemma Go118_sort_short_sorted l : sorted_by less (Go118_sort_short l).
Proof.
  unfold Go118_sort_short, Go_insertionSort.
  destruct (gap6_exchange (take 6 l) (drop 6 l)) as [f b].
  apply fold_insert_sorted. constructor.
Qed.
End InsertionSort.

Lemma fold_insert_Permutation {A : Type} (less : A -> A -> bool)
  (l sorted : list A) :
  Permutation (sorted ++ l)
    (fold_left (fun sorted x => insert_sorted less false x sorted) l sorted).
Proof.
  revert sorted. induction l as [|x l IH]; intros sorted; simpl.
  - now rewrite app_nil_r.
  - rewrite <- IH, <- insert_sorted_Permutation.
    symmetry. apply Permutation_middle.
Qed.

Lemma gap6_exchange_Permutation {A : Type} (less : A -> A -> bool)
  (front back : list A) :
  Permutation (front ++ back)
    (fst (gap6_exchange less front back) ++ snd (gap6_exchange less front back)).
Proof.
  revert back. induction front as [|x front IH]; intros back; [reflexivity|].
  destruct back as [|y back]; [reflexivity|].
  specialize (IH back). cbn [gap6_exchange].
  destruct (gap6_exchange less front back) as [f b]. cbn [fst snd] in IH.
  destruct (less y x); cbn [fst snd app].
  - rewrite <- !Permutation_middle, perm_swap.
    do 2 constructor. rewrite IH. reflexivity.
  - rewrite <- !Permutation_middle.
    do 2 constructor. rewrite IH. reflexivity.
Qed.

Lemma Go118_sort_short_Permutation {A : Type} (less : A -> A -> bool)
  (l : list A) :
  Permutation l (Go118_sort_short less l).
Proof.
  unfold Go118_sort_short, Go_insertionSort.
  pose proof (gap6_exchange_Permutation less (take 6 l) (drop 6 l)) as H.
  destruct (gap6_exchange less (take 6 l) (drop 6 l)) as [f b].
  cbn [fst snd] in H. rewrite take_drop in H.
  rewrite H. apply (fold_insert_Permutation less (f ++ b) []).
Qed.

Definition stable_SliceSort : SliceSort :=
  {| sort_Slice := fun A less => insertion_sort less true;
     sort_Slice_Permutation := fun A less => insertion_sort_Permutation less true;
     sort_Slice_sorted := fun A less H => insertion_sort_sorted less H true |}.

Definition go118_SliceSort : SliceSort :=
  {| sort_Slice := fun A less => Go118_sort_short less;
     sort_Slice_Permutation := fun A less => Go118_sort_short_Permutation less;
     sort_Slice_sorted := fun A less H => Go118_sort_short_sorted less H |}.

(** [strings.ToLower] on ASCII text: the bytes ['A'..'Z'] move to
    ['a'..'z'], every other byte stays. *)
Definition lower_byte (c : ascii) : ascii :=
  let n := nat_of_ascii c in
  if ((65 <=? n) && (n <=? 90))%nat then ascii_of_nat (n + 32) else c.

Fixpoint ToLower_ascii (s : string) : string :=
  match s with
  | EmptyString => EmptyString
  | String c s' => String (lower_byte c) (ToLower_ascii s')
  end.

(** A star of [owner] named [name], created and updated at second [t]. *)
Definition sample_star (id : Z) (owner name description : string) (t : Z)
  : Star :=
  {| ID := id; Name := name; FullName := (owner ++ "/" ++ name)%string;
     Owner := mkOwner owner;
     HTMLURL := ("https://github.com/" ++ owner ++ "/" ++ name)%string;
     Description := description;
     CreatedAt := mkTime t 0; UpdatedAt := mkTime t 0;
     Homepage := ""; StargazersCount := 0; Language := "Go";
     License := mkLicense "MIT" |}.

(** Sample remotes. Three stars on two pages, then the empty page; and the
    same account answered by a malformed payload on page 2. *)
Definition star_a : Star := sample_star 1 "octo" "foo" "a tool" 300.
Definition star_b : Star := sample_star 2 "Acme" "baz" "" 100.
Definition star_c : Star := sample_star 3 "octo" "bar" "another tool" 200.

Definition ok_reply (stars : list Star) : PageReply :=
  {| get_err := false; read_err := false; decoded := stars; decode_err := false |}.

Definition malformed_reply : PageReply :=
  {| get_err := false; read_err := false; decoded := []; decode_err := true |}.

Definition sample_remote (user : string) (page : Z) : PageReply :=
  if page =? 1 then ok_reply [star_a; star_b]
  else if page =? 2 then ok_reply [star_c]
  else ok_reply [].

Definition broken_remote (user : string) (page : Z) : PageReply :=
  if page =? 1 then ok_reply [star_a; star_b]
  else if page =? 2 then malformed_reply
  else if page =? 3 then ok_reply [star_c]
  else ok_reply [].

Definition sample_env (remote : string -> Z -> PageReply) (width : Z) : Env :=
  {| parse_err := false;
     opt := {| Order := ""; Reverse := false; Version := false |};
     GithubUser := Some "octo";
     remote := remote;
     terminal_Width := Some width |}.

(** Seven stars: one owner sorting last, then six stars of one owner name
    in three spellings. *)
Definition seven_stars : list Star :=
  [sample_star 1 "zeta" "r1" "" 0; sample_star 2 "octo" "r2" "" 0;
   sample_star 3 "octo" "r3" "" 0; sample_star 4 "Octo" "r4" "" 0;
   sample_star 5 "octo" "r5" "" 0; sample_star 6 "octo" "r6" "" 0;
   sample_star 7 "OCTO" "r7" "" 0].

(** The query [o], tab, [b]. *)
Definition tab_query : string := String "o" (String "009" (String "b" EmptyString)).

(** * Properties *)

(** ** Renderer adapter *)

Lemma substring_prefix_length (n : nat) (s : string) :
  (n <= String.length s)%nat -> String.length (substring 0 n s) = n.
Proof.
  revert s. induction n as [|n IH]; intros s Hn.
  - destruct s; reflexivity.
  - destruct s as [|c s]; simpl in *; [lia|].
    rewrite IH; [reflexivity|lia].
Qed.

Lemma has_suffix_append (s t : string) : Go.has_suffix (s ++ t)%string t = true.
Proof.
  induction s as [|c s IH].
  - change (("" ++ t)%string) with t.
    destruct t; cbn [Go.has_suffix]; now rewrite String.eqb_refl.
  - change ((String c s ++ t)%string) with (String c (s ++ t)).
    cbn [Go.has_suffix].
    destruct (String.eqb (String c (s ++ t)) t); [reflexivity|exact IH].
Qed.

Lemma slice_to_in_range (s : string) (hi : Z) :
  0 <= hi <= Go.len s ->
  Go.slice_to s hi = Some (substring 0 (Z.to_nat hi) s).
Proof.
  intros H. unfold Go.slice_to.
  destruct (hi <? 0) eqn:E1; [lia|].
  destruct (Go.len s <? hi) eqn:E2; [lia|reflexivity].
Qed.

Lemma slice_to_negative (s : string) (hi : Z) :
  hi < 0 -> Go.slice_to s hi = None.
Proof.
  intros H. unfold Go.slice_to.
  destruct (hi <? 0) eqn:E1; [reflexivity|lia].
Qed.

(** When the width is below 25 columns and the description is longer than
    [width - 22], the slice bound [width - 25] is negative and the loop
    panics; below 22 columns this happens for every description. *)
Lemma truncateDescription_panics (width : Z) (d : string) :
  0 <= width < 25 -> width - 22 < Go.len d ->
  truncateDescription width d = Go.Panic.
Proof.
  intros Hw Hd. unfold truncateDescription, Go.sub.
  rewrite !Go.wrap_int_id by int_range.
  destruct (width - 22 <? Go.len d) eqn:E; [|lia].
  rewrite slice_to_negative by lia. reflexivity.
Qed.

(** C2, at the failing input: on a terminal 20 columns wide the truncation of
    the description ["hello"] produces no result: the slice bound [20 - 25] is
    negative and the program panics. Every width below 22 does so on every
    description, and [run] panics with it before the prompt is opened. *)
Theorem C2_truncation_panics_below_margin :
  truncateDescription (Go.int_of_uint 20) "hello" = Go.Panic /\
  (forall (width : Z) (d : string),
     0 <= width < 22 -> truncateDescription width d = Go.Panic) /\
  @run ToLower_ascii stable_SliceSort 5 (sample_env sample_remote 20) =
    Some Go.Panic.
Proof.
  split; [reflexivity|]. split; [|vm_compute; reflexivity].
  intros width d Hw. apply truncateDescription_panics; [lia|].
  pose proof (Go.len_nonneg d). lia.
Qed.

(** C5, refuted as stated: an 80-column terminal leaves ["wait..."] as it is,
    and the result ends in the marker although nothing was cut; on a
    20-column terminal the description ["hello"] has no result at all. *)
Lemma C5_truncation_boundary_counterexample :
  ~ TruncationBoundary 80 "wait..." /\ ~ TruncationBoundary 20 "hello".
Proof.
  split.
  - intros (out & Hout & _ & _ & Hmark).
    vm_compute in Hout. injection Hout as <-.
    destruct Hmark as [Hmark _]. specialize (Hmark eq_refl).
    vm_compute in Hmark. discriminate.
  - intros (out & Hout & _). vm_compute in Hout. discriminate.
Qed.

(** C5, amended: for a width [W] of at least 25 columns, a description longer
    than [W - 22] bytes becomes its first [W - 25] bytes followed by ["..."],
    which is exactly [W - 22] bytes long and ends in the marker; a description
    of at most [W - 22] bytes is returned unchanged. *)
Theorem C5_truncation_boundary (W : Z) (d : string) :
  25 <= W <= Go.max_int ->
  exists out : string,
    truncateDescription W d = Go.Ret out /\
    (W - 22 < Go.len d ->
       out = (substring 0 (Z.to_nat (W - 25)) d ++ "...")%string /\
       Go.len out = W - 22 /\
       Go.has_suffix out "..." = true) /\
    (Go.len d <= W - 22 -> out = d).
Proof.
  intros HW. unfold truncateDescription, Go.sub.
  rewrite !Go.wrap_int_id by int_range.
  destruct (W - 22 <? Go.len d) eqn:E.
  - apply Z.ltb_lt in E.
    rewrite slice_to_in_range by lia.
    eexists. split; [reflexivity|]. split; [|lia].
    intros _. split; [reflexivity|]. split.
    + rewrite Go.len_append. unfold Go.len at 1.
      rewrite substring_prefix_length by (unfold Go.len in E; lia).
      change (Go.len "...") with 3. lia.
    + apply has_suffix_append.
  - apply Z.ltb_ge in E.
    exists d. split; [reflexivity|]. split; [lia|]. intros _. reflexivity.
Qed.

(** C5 at work: 30 columns, a description of 11 bytes. *)
Lemma C5_truncation_boundary_witness :
  exists out : string,
    truncateDescription 30 "hello world" = Go.Ret out /\
    (30 - 22 < Go.len "hello world" ->
       out = (substring 0 (Z.to_nat (30 - 25)) "hello world" ++ "...")%string /\
       Go.len out = 30 - 22 /\
       Go.has_suffix out "..." = true) /\
    (Go.len "hello world" <= 30 - 22 -> out = "hello world").
Proof.
  apply (C5_truncation_boundary 30 "hello world").
  unfold Go.max_int. lia.
Defined.

(** ** Sorter *)

Section ReversedFacts.
Context {A : Type}.
Implicit Types (l : list A) (i j k p : nat).

Lemma swap_in_range i j l :
  (i < length l)%nat -> (j < length l)%nat ->
  exists l' : list A,
    swap i j l = Go.Ret l' /\
    length l' = length l /\
    forall p, l' !! p =
      if decide (p = i) then l !! j
      else if decide (p = j) then l !! i
      else l !! p.
Proof.
  intros Hi Hj. unfold swap.
  destruct (lookup_lt_is_Some_2 l i Hi) as [x Hx].
  destruct (lookup_lt_is_Some_2 l j Hj) as [y Hy].
  rewrite Hx, Hy. eexists. split; [reflexivity|]. split.
  - now rewrite !length_insert.
  - intros p. destruct (decide (p = i)) as [->|Hpi].
    + rewrite list_lookup_insert_eq; [reflexivity|].
      now rewrite length_insert.
    + rewrite list_lookup_insert_ne by congruence.
      destruct (decide (p = j)) as [->|Hpj].
      * now rewrite list_lookup_insert_eq.
      * now rewrite list_lookup_insert_ne by congruence.
Qed.

(** The loop never leaves the slice: it returns, and after the iterations
    [i = k-1, ..., 0] the outer [k] positions on each side are mirrored while
    the middle is untouched. *)
Lemma reversed_loop_lookup k :
  forall l, (2 * k <= length l)%nat ->
  exists l' : list A,
    reversed_loop k l = Go.Ret l' /\
    forall p, l' !! p =
      if decide (p < k \/ length l - k <= p < length l)%nat
      then l !! (length l - 1 - p)%nat
      else l !! p.
Proof.
  induction k as [|i IH]; intros l Hk.
  - exists l. split; [reflexivity|]. intros p.
    destruct (decide _) as [[H|H]|H]; try lia. reflexivity.
  - destruct (swap_in_range i (length l - 1 - i) l) as (l1 & Hswap & Hlen & Hl1);
      [lia|lia|].
    destruct (IH l1) as (l' & Hloop & Hl'); [lia|].
    exists l'. split.
    + cbn [reversed_loop]. rewrite Hswap. exact Hloop.
    + intros p. rewrite Hl', !Hl1, Hlen.
      repeat destruct (decide _); try lia; try reflexivity; f_equal; lia.
Qed.

Lemma reversed_reverse l : reversed l = Go.Ret (reverse l).
Proof.
  unfold reversed.
  pose proof (Nat.div_mod_eq (length l) 2) as Hdiv.
  pose proof (Nat.mod_upper_bound (length l) 2 ltac:(lia)) as Hmod.
  destruct (reversed_loop_lookup (length l / 2) l) as (l' & -> & Hl'); [lia|].
  f_equal. apply list_eq. intros p. rewrite Hl'.
  destruct (decide (p < length l)%nat) as [Hp|Hp].
  - rewrite reverse_lookup by exact Hp.
    destruct (decide _) as [H|H]; f_equal; lia.
  - rewrite (lookup_ge_None_2 (reverse l)) by (rewrite length_reverse; lia).
    destruct (decide _) as [H|H]; [lia|].
    apply lookup_ge_None_2. lia.
Qed.

End ReversedFacts.

(** The comparators meet the requirement of the [sort] package. *)

Lemma ltb_compare_Lt (s t : string) :
  (s <? t)%string = true <-> String_as_OT.lt s t.
Proof.
  unfold String.ltb, String_as_OT.lt.
  change (String_as_OT.compare s t) with (String.compare s t).
  destruct (String.compare s t); split; intros H; congruence.
Qed.

Lemma ltb_irrefl (s : string) : (s <? s)%string = false.
Proof.
  destruct (s <? s)%string eqn:E; [|reflexivity].
  apply ltb_compare_Lt in E.
  now apply (StrictOrder_Irreflexive (R := String_as_OT.lt)) in E.
Qed.

Lemma ltb_trans (s t u : string) :
  (s <? t)%string = true -> (t <? u)%string = true -> (s <? u)%string = true.
Proof.
  rewrite !ltb_compare_Lt. apply (StrictOrder_Transitive (R := String_as_OT.lt)).
Qed.

Lemma ltb_false_leb (s t : string) :
  (s <? t)%string = false <-> (t <=? s)%string = true.
Proof.
  unfold String.ltb, String.leb. rewrite (String.compare_antisym s t).
  destruct (String.compare t s); simpl; split; congruence.
Qed.

Lemma ltb_negtrans (s t u : string) :
  (s <? t)%string = false -> (t <? u)%string = false -> (s <? u)%string = false.
Proof.
  intros Hst Htu.
  destruct (s <? u)%string eqn:Hsu; [|reflexivity].
  destruct (String_as_OT.compare_spec t s) as [Heq|Hlt|Hgt].
  - unfold String_as_OT.eq in Heq. subst t. congruence.
  - apply ltb_compare_Lt in Hsu.
    assert (String_as_OT.lt t u) as Htu'
      by (eapply (StrictOrder_Transitive (R := String_as_OT.lt)); eassumption).
    apply ltb_compare_Lt in Htu'. congruence.
  - apply ltb_compare_Lt in Hgt. congruence.
Qed.

Lemma ltb_key_swo {A : Type} (key : A -> string) :
  StrictWeakOrder (fun a b => (key a <? key b)%string).
Proof.
  split; intros.
  - apply ltb_irrefl.
  - eapply ltb_trans; eassumption.
  - eapply ltb_negtrans; eassumption.
Qed.

Lemma After_true (t u : Time) :
  After t u = true <-> sec u < sec t \/ (sec t = sec u /\ nsec u < nsec t).
Proof.
  unfold After.
  rewrite orb_true_iff, andb_true_iff, !Z.ltb_lt, Z.eqb_eq. reflexivity.
Qed.

Lemma After_false (t u : Time) : After t u = false <-> Time_le t u.
Proof.
  unfold Time_le. rewrite <- not_true_iff_false, After_true. lia.
Qed.

Lemma After_key_swo {A : Type} (key : A -> Time) :
  StrictWeakOrder (fun a b => After (key a) (key b)).
Proof.
  split.
  - intros a. apply After_false. unfold Time_le. lia.
  - intros a b c. rewrite !After_true. lia.
  - intros a b c. rewrite !After_false. unfold Time_le. lia.
Qed.

Section SorterFacts.
Variable ToLower : string -> string.
Context {slice_sort : SliceSort}.

Lemma comparator_swo (order : string) (less : Star -> Star -> bool) :
  comparator ToLower order = Some less -> StrictWeakOrder less.
Proof.
  unfold comparator. intros H.
  repeat match type of H with
         | (if ?c then _ else _) = _ => destruct c
         end;
    inversion H; subst less;
    first [ apply (ltb_key_swo (fun s => ToLower (Login (Owner s))))
          | apply (ltb_key_swo (fun s => ToLower (Name s)))
          | apply (After_key_swo CreatedAt)
          | apply (After_key_swo UpdatedAt) ].
Qed.

(** What [sort.Slice] leaves in the slice before the reversal, if any. *)
Definition sorted_stars (stars : list Star) (order : string) : list Star :=
  match comparator ToLower order with
  | Some less => sort_Slice less stars
  | None => stars
  end.

Lemma sortItemOrder_forward (stars : list Star) (order : string) :
  sortItemOrder ToLower stars order false = Go.Ret (sorted_stars stars order).
Proof. reflexivity. Qed.

Lemma sortItemOrder_reverse (stars : list Star) (order : string) :
  sortItemOrder ToLower stars order true =
    Go.Ret (reverse (sorted_stars stars order)).
Proof. unfold sortItemOrder. now rewrite reversed_reverse. Qed.

Lemma sorted_stars_sorted (stars : list Star) (order : string)
  (less : Star -> Star -> bool) :
  comparator ToLower order = Some less ->
  sorted_by less (sorted_stars stars order).
Proof.
  intros H. unfold sorted_stars. rewrite H.
  apply sort_Slice_sorted. eapply comparator_swo, H.
Qed.

Lemma sorted_stars_Permutation (stars : list Star) (order : string) :
  Permutation stars (sorted_stars stars order).
Proof.
  unfold sorted_stars.
  destruct (comparator ToLower order); [apply sort_Slice_Permutation|reflexivity].
Qed.

End SorterFacts.

(** *** The claims on [sortItemOrder] *)

Lemma StronglySorted_weaken {A : Type} (R R' : A -> A -> Prop) (l : list A) :
  (forall a b, R a b -> R' a b) -> StronglySorted R l -> StronglySorted R' l.
Proof.
  intros HR. induction 1 as [|a l Hl IH Ha]; constructor.
  - exact IH.
  - eapply Forall_impl; [exact Ha|]. simpl. intros b. apply HR.
Qed.

Section SorterClaims.
Variable ToLower : string -> string.
Context {slice_sort : SliceSort}.

(** C10: whatever the key string and the reversal flag, [sortItemOrder]
    returns, and its output is a permutation of its input. *)
Theorem C10_sortItemOrder_Permutation (stars : list Star) (order : string)
  (reverse : bool) :
  exists out : list Star,
    sortItemOrder ToLower stars order reverse = Go.Ret out /\
    Permutation stars out.
Proof.
  destruct reverse.
  - eexists. split; [apply sortItemOrder_reverse|].
    rewrite reverse_Permutation. apply sorted_stars_Permutation.
  - eexists. split; [apply sortItemOrder_forward|].
    apply sorted_stars_Permutation.
Qed.

(** C6: with the reversal flag set, [sortItemOrder] returns the end-to-end
    reverse of what it returns without the flag, for every key; and under
    [added-at] reversing twice gives back the fetch order. *)
Theorem C6_reverse_flag (stars : list Star) (order : string) :
  (exists out : list Star,
     sortItemOrder ToLower stars order false = Go.Ret out /\
     sortItemOrder ToLower stars order true = Go.Ret (reverse out)) /\
  (let! once := sortItemOrder ToLower stars "added-at" true in
   sortItemOrder ToLower once "added-at" true) = Go.Ret stars.
Proof.
  split.
  - eexists. split; [apply sortItemOrder_forward|apply sortItemOrder_reverse].
  - rewrite sortItemOrder_reverse. cbn [Go.bind].
    rewrite sortItemOrder_reverse.
    change (sorted_stars ToLower ?l "added-at") with l.
    now rewrite reverse_involutive.
Qed.

(** C7: without the reversal flag the output holds the records of the input,
    each once, in the order of the key: owner handles ascending after
    lower-casing for [author-name], creation times descending for
    [created-at], update times descending for [updated-at], display names
    ascending after lower-casing for [repository-name], and the input itself
    for [added-at]. *)
Theorem C7_sortItemOrder_ordered (stars : list Star) :
  (exists out : list Star,
     sortItemOrder ToLower stars "author-name" false = Go.Ret out /\
     Permutation stars out /\
     StronglySorted
       (fun a b =>
          (ToLower (Login (Owner a)) <=? ToLower (Login (Owner b)))%string = true)
       out) /\
  (exists out : list Star,
     sortItemOrder ToLower stars "created-at" false = Go.Ret out /\
     Permutation stars out /\
     StronglySorted (fun a b => Time_le (CreatedAt b) (CreatedAt a)) out) /\
  (exists out : list Star,
     sortItemOrder ToLower stars "updated-at" false = Go.Ret out /\
     Permutation stars out /\
     StronglySorted (fun a b => Time_le (UpdatedAt b) (UpdatedAt a)) out) /\
  (exists out : list Star,
     sortItemOrder ToLower stars "repository-name" false = Go.Ret out /\
     Permutation stars out /\
     StronglySorted
       (fun a b => (ToLower (Name a) <=? ToLower (Name b))%string = true)
       out) /\
  sortItemOrder ToLower stars "added-at" false = Go.Ret stars.
Proof.
  split; [|split; [|split; [|split]]].
  - eexists. split; [apply sortItemOrder_forward|].
    split; [apply sorted_stars_Permutation|].
    eapply StronglySorted_weaken;
      [|apply (sorted_stars_sorted ToLower stars "author-name" _ eq_refl)].
    intros a b. apply ltb_false_leb.
  - eexists. split; [apply sortItemOrder_forward|].
    split; [apply sorted_stars_Permutation|].
    eapply StronglySorted_weaken;
      [|apply (sorted_stars_sorted ToLower stars "created-at" _ eq_refl)].
    intros a b. apply After_false.
  - eexists. split; [apply sortItemOrder_forward|].
    split; [apply sorted_stars_Permutation|].
    eapply StronglySorted_weaken;
      [|apply (sorted_stars_sorted ToLower stars "updated-at" _ eq_refl)].
    intros a b. apply After_false.
  - eexists. split; [apply sortItemOrder_forward|].
    split; [apply sorted_stars_Permutation|].
    eapply StronglySorted_weaken;
      [|apply (sorted_stars_sorted ToLower stars "repository-name" _ eq_refl)].
    intros a b. apply ltb_false_leb.
  - reflexivity.
Qed.

(** C3, amended: for a key without comparator the input order is kept as it
    is; for a key with a comparator the records tying with any given record
    are all kept, but as a permutation: [sort.Slice] promises no order among
    them. *)
Theorem C3_ties_kept_up_to_order (stars : list Star) (order : string) :
  (comparator ToLower order = None ->
     sortItemOrder ToLower stars order false = Go.Ret stars) /\
  (forall less : Star -> Star -> bool,
     comparator ToLower order = Some less ->
     exists out : list Star,
       sortItemOrder ToLower stars order false = Go.Ret out /\
       forall x : Star,
         Permutation (filter (ties less x) stars) (filter (ties less x) out)).
Proof.
  split.
  - intros H. rewrite sortItemOrder_forward. unfold sorted_stars. now rewrite H.
  - intros less _. eexists. split; [apply sortItemOrder_forward|].
    intros x. apply filter_Permutation, sorted_stars_Permutation.
Qed.

End SorterClaims.

(** C3, refuted as stated: with the [sort.Slice] of the Go releases up to
    1.18, seven stars sorted by [author-name] lose the order of their ties.
    The pass with gap 6 compares the last star (owner [OCTO]) with the first
    (owner [zeta]) and swaps them, over the five stars that tie with the
    last one; the insertion sort then leaves it in front of them. *)
Lemma C3_sort_stability_counterexample :
  ~ SortStability go118_SliceSort ToLower_ascii "author-name" seven_stars.
Proof.
  intros H.
  destruct (H (less_author_name ToLower_ascii) eq_refl) as (out & Hout & Hstable).
  vm_compute in Hout. injection Hout as <-.
  specialize (Hstable (sample_star 2 "octo" "r2" "" 0)).
  vm_compute in Hstable. discriminate.
Qed.

(** The output of that run in full: the star with id 7 comes first, before
    the stars 2 to 6 it ties with and came after. *)
Example sort_Slice_go118_reorders_ties :
  exists out : list Star,
    @sortItemOrder ToLower_ascii go118_SliceSort seven_stars "author-name" false
      = Go.Ret out /\
    map ID out = [7; 2; 3; 4; 5; 6; 1] /\
    ~ stable (less_author_name ToLower_ascii) seven_stars out.
Proof.
  eexists. split; [vm_compute; reflexivity|]. split; [reflexivity|].
  intros H. specialize (H (sample_star 2 "octo" "r2" "" 0)).
  vm_compute in H. discriminate.
Qed.

(** ** Page fetcher and aggregator *)

Section RetrievalFacts.
Variable remote : string -> Z -> PageReply.
Variable user : string.

Lemma getStarsPage_transport_failure (i : Z) :
  get_err (remote user i) = true -> getStarsPage remote user i = Go.Fatal.
Proof. intros H. unfold getStarsPage. now rewrite H. Qed.

Lemma getStarsPage_empty (i : Z) :
  get_err (remote user i) = false -> decoded (remote user i) = [] ->
  getStarsPage remote user i = Go.Ret None.
Proof. intros H1 H2. unfold getStarsPage. now rewrite H1, H2. Qed.

Lemma getStarsPage_nonempty (i : Z) :
  get_err (remote user i) = false -> decoded (remote user i) <> [] ->
  getStarsPage remote user i = Go.Ret (Some (decoded (remote user i))).
Proof.
  intros H1 H2. unfold getStarsPage. rewrite H1.
  destruct (decoded (remote user i)) as [|s l]; [congruence|].
  reflexivity.
Qed.

(** The loop from page [i] on, when the pages [i .. i+m-1] are non-empty and
    page [i+m] is the first empty one. *)
Lemma fetchLoop_until_empty (m : nat) :
  forall (i fuel : nat) (stars : list Star) (requests : list Z),
    Z.of_nat (i + m) <= Go.max_int ->
    (forall k, (i <= k < i + m)%nat ->
       get_err (remote user (Z.of_nat k)) = false /\ page remote user k <> []) ->
    get_err (remote user (Z.of_nat (i + m))) = false ->
    page remote user (i + m) = [] ->
    (m < fuel)%nat ->
    fetchLoop remote fuel user (Z.of_nat i) stars requests =
      Some (Go.Ret (stars ++ concat (map (page remote user) (seq i m))),
            requests ++ map Z.of_nat (seq i (S m))).
Proof.
  induction m as [|m IH]; intros i fuel stars requests Hmax Hfull Hget Hempty Hfuel;
    (destruct fuel as [|fuel]; [lia|]).
  - rewrite Nat.add_0_r in *. cbn [fetchLoop].
    rewrite getStarsPage_empty by assumption.
    cbn. now rewrite app_nil_r.
  - destruct (Hfull i ltac:(lia)) as [Hgi Hpi].
    cbn [fetchLoop]. rewrite getStarsPage_nonempty by assumption.
    unfold Go.add. rewrite Go.wrap_int_id by int_range.
    replace (Z.of_nat i + 1) with (Z.of_nat (S i)) by lia.
    rewrite IH.
    + cbn [seq map concat]. fold (page remote user i).
      now rewrite <- !app_assoc.
    + replace (S i + m)%nat with (i + S m)%nat by lia. exact Hmax.
    + intros k Hk. apply Hfull. lia.
    + replace (S i + m)%nat with (i + S m)%nat by lia. exact Hget.
    + replace (S i + m)%nat with (i + S m)%nat by lia. exact Hempty.
    + lia.
Qed.

(** C4: when the pages [1 .. N-1] are non-empty and page [N] is empty, the
    loop ends (any bound of at least [N] iterations is enough), returns the
    concatenation of the pages [1 .. N-1] in page order, and has requested
    exactly the pages [1, 2, ..., N], in that order. *)
Theorem C4_fetchAll_until_empty_page (N : nat) :
  (1 <= N)%nat -> Z.of_nat N <= Go.max_int ->
  (forall k, (1 <= k < N)%nat ->
     get_err (remote user (Z.of_nat k)) = false /\ page remote user k <> []) ->
  get_err (remote user (Z.of_nat N)) = false ->
  page remote user N = [] ->
  forall fuel, (N <= fuel)%nat ->
    fetchAll remote fuel user =
      Some (Go.Ret (concat (map (page remote user) (seq 1 (N - 1)))),
            map Z.of_nat (seq 1 N)).
Proof.
  intros HN Hmax Hfull Hget Hempty fuel Hfuel. unfold fetchAll.
  change 1 with (Z.of_nat 1).
  replace N with (1 + (N - 1))%nat in Hmax, Hfull, Hget, Hempty by lia.
  rewrite (fetchLoop_until_empty (N - 1) 1 fuel [] []) by (assumption || lia).
  cbn [app]. replace (S (N - 1)) with N by lia. reflexivity.
Qed.

End RetrievalFacts.

(** C4 at work: two pages of stars, the third one empty. *)
Lemma C4_fetchAll_until_empty_page_witness :
  fetchAll sample_remote 5 "octo" =
    Some (Go.Ret (concat (map (page sample_remote "octo") (seq 1 (3 - 1)))),
          map Z.of_nat (seq 1 3)).
Proof.
  apply (C4_fetchAll_until_empty_page sample_remote "octo" 3).
  - lia.
  - unfold Go.max_int. lia.
  - intros k Hk. assert (k = 1 \/ k = 2)%nat as [-> | ->] by lia;
      (split; [reflexivity|discriminate]).
  - reflexivity.
  - reflexivity.
  - lia.
Defined.

(** C1, at the failing input: page 1 holds two stars and the payload of
    page 2 is malformed. [getStarsPage] takes the undecoded page for the
    empty one, the loop stops as if the list were complete, and [run] opens
    the prompt on the two stars of page 1; the star on page 3 is never asked
    for. Only a failure of [http.Get] itself is fatal. *)
Theorem C1_malformed_page_is_not_fatal :
  failed (broken_remote "octo" 2) = true /\
  fetchAll broken_remote 5 "octo" = Some (Go.Ret [star_a; star_b], [1; 2]) /\
  @run ToLower_ascii stable_SliceSort 5 (sample_env broken_remote 80) =
    Some (Go.Ret (Prompt [star_a; star_b])) /\
  ~ FailLoud broken_remote "octo" 5 /\
  (forall (remote : string -> Z -> PageReply) (user : string) (i : Z),
     get_err (remote user i) = true -> getStarsPage remote user i = Go.Fatal).
Proof.
  split; [reflexivity|]. split; [reflexivity|]. split; [vm_compute; reflexivity|].
  split; [|apply getStarsPage_transport_failure].
  intros H.
  specialize (H (Go.Ret [star_a; star_b]) [1; 2] eq_refl).
  assert (Go.Ret [star_a; star_b] = @Go.Fatal (list Star)) as C; [|discriminate C].
  apply H. exists 2. split; [simpl; auto|reflexivity].
Qed.

(** ** Fuzzy matcher *)

Lemma Subsequence_tail (c : ascii) (s t : string) :
  Subsequence (String c s) t -> Subsequence s t.
Proof.
  intros H. remember (String c s) as cs eqn:E. revert c s E.
  induction H as [t|c' s' t H IH|c' s' t H IH]; intros c s E.
  - discriminate.
  - injection E as -> ->. now constructor.
  - constructor. eapply IH, E.
Qed.

Lemma Subsequence_app_l (a b t : string) :
  Subsequence (a ++ b)%string t -> Subsequence a t.
Proof.
  intros H. remember (a ++ b)%string as ab eqn:E. revert a b E.
  induction H as [t|c s t H IH|c s t H IH]; intros a b E.
  - destruct a; [constructor|discriminate].
  - destruct a as [|c' a]; [constructor|].
    simpl in E. injection E as -> ->. constructor. eapply IH. reflexivity.
  - constructor. eapply IH, E.
Qed.

Lemma Match_cons (r1 : ascii) (source : string) (r2 : ascii) (target : string) :
  Match (String r1 source) (String r2 target) =
    if (r1 =? r2)%char then Match source target
    else Match (String r1 source) target.
Proof. reflexivity. Qed.

Lemma Match_Subsequence (source target : string) :
  Match source target = true <-> Subsequence source target.
Proof.
  split.
  - revert target. induction source as [|r1 source IH]; intros target H.
    + constructor.
    + induction target as [|r2 target IHt]; [discriminate|].
      rewrite Match_cons in H.
      destruct (Ascii.eqb_spec r1 r2) as [->|Hne].
      * constructor. now apply IH.
      * constructor. now apply IHt.
  - revert source. induction target as [|r2 target IH]; intros source H.
    + inversion H; subst. reflexivity.
    + destruct source as [|r1 source]; [reflexivity|].
      rewrite Match_cons.
      destruct (Ascii.eqb_spec r1 r2) as [->|Hne].
      * apply IH. inversion H; subst; [assumption|].
        eapply Subsequence_tail; eassumption.
      * apply IH. inversion H; subst; [congruence|assumption].
Qed.

Lemma Replace_spaces_app (a b : string) :
  Replace_spaces (a ++ b)%string =
    (Replace_spaces a ++ Replace_spaces b)%string.
Proof.
  induction a as [|c a IH]; simpl; [reflexivity|].
  destruct (c =? " ")%char; simpl; now rewrite IH.
Qed.

Section SearcherFacts.
Variable ToLower : string -> string.

Lemma searcher_in_range (stars : list Star) (input : string) (index : nat)
  (star : Star) :
  stars !! index = Some star ->
  searcher ToLower stars input (Z.of_nat index) =
    Go.Ret (Match (normalize ToLower input) (normalize ToLower (FullName star))).
Proof.
  intros H. pose proof (lookup_lt_Some _ _ _ H) as Hlt.
  unfold searcher.
  destruct (Z.of_nat index <? 0) eqn:E1; [lia|].
  destruct (Z.of_nat (length stars) <=? Z.of_nat index) eqn:E2; [lia|].
  cbn [orb]. rewrite Nat2Z.id, H. reflexivity.
Qed.

Lemma visible_spec (stars : list Star) (input : string) (index : nat)
  (star : Star) :
  stars !! index = Some star ->
  (In index (visible ToLower stars input) <->
   Match (normalize ToLower input) (normalize ToLower (FullName star)) = true).
Proof.
  intros H. pose proof (lookup_lt_Some _ _ _ H) as Hlt.
  unfold visible. rewrite filter_In, in_seq, (searcher_in_range _ _ _ _ H).
  cbn [accepted].
  destruct (Match _ _); split.
  - reflexivity.
  - intros _. split; [lia|reflexivity].
  - intros [_ C]. exact C.
  - discriminate.
Qed.

Lemma visible_in_range (stars : list Star) (input : string) (index : nat) :
  In index (visible ToLower stars input) -> exists star, stars !! index = Some star.
Proof.
  unfold visible. rewrite filter_In, in_seq. intros [[_ Hlt] _].
  apply lookup_lt_is_Some_2. lia.
Qed.

End SearcherFacts.

(** C8, refuted as stated: with all whitespace removed the query [o<TAB>b]
    reads [ob], a subsequence of [octo/bar]; the code removes spaces only,
    keeps the tab, and the candidate is not visible. *)
Lemma C8_whitespace_counterexample :
  ~ VisibleIffSubsequence ToLower_ascii [star_c] tab_query 0.
Proof.
  intros [_ H].
  assert (In 0%nat (visible ToLower_ascii [star_c] tab_query)) as C.
  { apply H. exists star_c. split; [reflexivity|].
    apply Match_Subsequence. vm_compute. reflexivity. }
  vm_compute in C. exact C.
Qed.

Section SearcherClaims.
Variable ToLower : string -> string.

(** C8, amended: a candidate is visible if and only if the query, after
    lower-casing and removal of every space character (other whitespace is
    kept), is a subsequence of the candidate's full name after the same two
    steps; and the empty query makes every candidate visible. *)
Theorem C8_visible_iff_subsequence (stars : list Star) (input : string)
  (index : nat) (star : Star) :
  stars !! index = Some star ->
  (In index (visible ToLower stars input) <->
   Subsequence (normalize ToLower input) (normalize ToLower (FullName star))) /\
  (ToLower "" = "" -> In index (visible ToLower stars "")).
Proof.
  intros H. split.
  - rewrite (visible_spec ToLower _ _ _ _ H). apply Match_Subsequence.
  - intros Hempty. apply (visible_spec ToLower _ _ _ _ H).
    unfold normalize at 1. rewrite Hempty. reflexivity.
Qed.

(** C9: appending a character [c] to the query [q] never makes a candidate
    visible that was not: what is visible under [q ++ c] is visible under
    [q]. [strings.ToLower] works character by character, which is all that
    is used of it: the lower-casing of [q ++ c] is that of [q] followed by
    that of [c]. *)
Theorem C9_append_narrows_visible (stars : list Star) (q c : string) :
  ToLower (q ++ c)%string = (ToLower q ++ ToLower c)%string ->
  incl (visible ToLower stars (q ++ c)%string) (visible ToLower stars q).
Proof.
  intros Happ index Hin.
  destruct (visible_in_range ToLower _ _ _ Hin) as [star Hstar].
  apply (visible_spec ToLower _ _ _ _ Hstar).
  apply (visible_spec ToLower _ _ _ _ Hstar) in Hin.
  apply Match_Subsequence. apply Match_Subsequence in Hin.
  unfold normalize in Hin at 1. rewrite Happ, Replace_spaces_app in Hin.
  eapply Subsequence_app_l, Hin.
Qed.

End SearcherClaims.

(** C8 at work: the query [O b] against [octo/bar]. *)
Lemma C8_visible_iff_subsequence_witness :
  (In 1%nat (visible ToLower_ascii [star_a; star_c; star_b] "O b") <->
   Subsequence (normalize ToLower_ascii "O b")
               (normalize ToLower_ascii (FullName star_c))) /\
  (ToLower_ascii "" = "" ->
   In 1%nat (visible ToLower_ascii [star_a; star_c; star_b] "")).
Proof.
  apply (C8_visible_iff_subsequence ToLower_ascii
           [star_a; star_c; star_b] "O b" 1 star_c).
  reflexivity.
Defined.

(** C9 at work: the query [o] grown by [B]. *)
Lemma C9_append_narrows_visible_witness :
  incl (visible ToLower_ascii [star_a; star_c; star_b] ("o" ++ "B")%string)
       (visible ToLower_ascii [star_a; star_c; star_b] "o").
Proof.
  apply (C9_append_narrows_visible ToLower_ascii
           [star_a; star_c; star_b] "o" "B").
  reflexivity.
Defined.

(** The scenario of the specification: among [octo/foo], [octo/bar] and
    [acme/baz] the query [ob] leaves [octo/bar] alone; every candidate is
    visible under the empty query. *)
Example visible_scenario :
  visible ToLower_ascii [star_a; star_c; star_b] "ob" = [1%nat] /\
  visible ToLower_ascii [star_a; star_c; star_b] "" = [0; 1; 2]%nat.
Proof. split; reflexivity. Qed.

(** * Further properties of the code *)

(** ** [reversed] and [sortItemOrder] *)

Lemma StronglySorted_snoc {A : Type} (R : A -> A -> Prop) (l : list A) (x : A) :
  StronglySorted R l -> Forall (fun y => R y x) l -> StronglySorted R (l ++ [x]).
Proof.
  induction 1 as [|a l Hl IH Ha]; intros Hx; simpl.
  - repeat constructor.
  - inversion Hx as [|? ? Hax Hlx]; subst. constructor.
    + now apply IH.
    + apply Forall_app. split; [exact Ha|]. now repeat constructor.
Qed.

Lemma StronglySorted_reverse {A : Type} (R : A -> A -> Prop) (l : list A) :
  StronglySorted R l -> StronglySorted (fun a b => R b a) (reverse l).
Proof.
  induction 1 as [|a l Hl IH Ha].
  - constructor.
  - rewrite reverse_cons. apply StronglySorted_snoc; [exact IH|].
    now apply Forall_reverse.
Qed.

(** Two lists sorted by [less] that hold the same elements are the same
    list, provided elements that tie are equal. *)
Lemma sorted_by_unique {A : Type} (less : A -> A -> bool) (l1 : list A) :
  forall l2 : list A,
    Permutation l1 l2 -> sorted_by less l1 -> sorted_by less l2 ->
    (forall a b, In a l1 -> In b l1 -> ties less a b -> a = b) ->
    l1 = l2.
Proof.
  unfold sorted_by.
  induction l1 as [|a l1 IH]; intros l2 Hperm H1 H2 Hties.
  - now apply Permutation_nil in Hperm.
  - destruct l2 as [|b l2];
      [apply Permutation_sym, Permutation_nil in Hperm; discriminate|].
    inversion H1 as [|? ? H1' Ha]; subst.
    inversion H2 as [|? ? H2' Hb]; subst.
    rewrite Forall_forall in Ha, Hb.
    assert (a = b) as ->.
    { assert (In a (b :: l2)) as Hin_a
        by (eapply Permutation_in; [exact Hperm|now left]).
      assert (In b (a :: l1)) as Hin_b
        by (eapply Permutation_in; [symmetry; exact Hperm|now left]).
      destruct Hin_a as [->|Hin_a]; [reflexivity|].
      destruct Hin_b as [->|Hin_b]; [reflexivity|].
      apply Hties; [now left|now right|]. split.
      - apply Hb, list_elem_of_In, Hin_a.
      - apply Ha, list_elem_of_In, Hin_b. }
    f_equal. apply IH.
    + eapply Permutation_cons_inv, Hperm.
    + exact H1'.
    + exact H2'.
    + intros x y Hx Hy. apply Hties; now right.
Qed.

Section SorterExtras.
Variable ToLower : string -> string.

(** X1: the swap loop of [reversed] never indexes outside the slice and
    leaves it reversed end to end, whatever its length (empty, odd or even);
    running it twice restores the slice. *)
Theorem reversed_is_reverse {A : Type} (stars : list A) :
  reversed stars = Go.Ret (reverse stars) /\
  (let! once := reversed stars in reversed once) = Go.Ret stars.
Proof.
  rewrite reversed_reverse. split; [reflexivity|].
  cbn [Go.bind]. now rewrite reversed_reverse, reverse_involutive.
Qed.

(** X2: the four [less] closures are orderings as the [sort] package asks
    for: irreflexive, transitive, and with a transitive negation. *)
Theorem less_closures_are_orderings :
  StrictWeakOrder (less_author_name ToLower) /\
  StrictWeakOrder (less_created_at) /\
  StrictWeakOrder (less_repository_name ToLower) /\
  StrictWeakOrder (less_updated_at).
Proof.
  split; [|split; [|split]].
  - exact (comparator_swo ToLower "author-name" _ eq_refl).
  - exact (comparator_swo ToLower "created-at" _ eq_refl).
  - exact (comparator_swo ToLower "repository-name" _ eq_refl).
  - exact (comparator_swo ToLower "updated-at" _ eq_refl).
Qed.

End SorterExtras.

Section SorterExtrasWithSort.
Variable ToLower : string -> string.
Context {slice_sort : SliceSort}.

(** X3: an order string that names none of the four comparator keys is
    ignored without any error: the stars come back in the input order, or in
    the reverse of it when the flag is set. The match is exact, so a key in
    other letter case is ignored too. *)
Theorem sortItemOrder_unknown_key (stars : list Star) (order : string)
  (flag : bool) :
  order <> "author-name" -> order <> "created-at" ->
  order <> "repository-name" -> order <> "updated-at" ->
  sortItemOrder ToLower stars order flag =
    Go.Ret (if flag then reverse stars else stars).
Proof.
  intros H1 H2 H3 H4.
  assert (comparator ToLower order = None) as Hnone.
  { unfold comparator.
    apply String.eqb_neq in H1, H2, H3, H4. rewrite H1, H2, H3, H4.
    now destruct (order =? "added-at")%string. }
  destruct flag.
  - rewrite sortItemOrder_reverse. unfold sorted_stars. now rewrite Hnone.
  - rewrite sortItemOrder_forward. unfold sorted_stars. now rewrite Hnone.
Qed.

(** X4: with the reversal flag set and a comparator key, the output holds
    the stars of the input, each once, in the opposite order of the key: no
    star is less than a later one (handles and names descending, times
    ascending). *)
Theorem sortItemOrder_reverse_ordered (stars : list Star) (order : string)
  (less : Star -> Star -> bool) :
  comparator ToLower order = Some less ->
  exists out : list Star,
    sortItemOrder ToLower stars order true = Go.Ret out /\
    Permutation stars out /\
    StronglySorted (fun a b => less a b = false) out.
Proof.
  intros H. eexists. split; [apply sortItemOrder_reverse|].
  split; [rewrite reverse_Permutation; apply sorted_stars_Permutation|].
  apply (StronglySorted_reverse (fun a b => less b a = false)).
  apply (sorted_stars_sorted ToLower stars order less H).
Qed.

(** X5: a slice of at most one star comes back as it is, for every key and
    either flag. *)
Theorem sortItemOrder_short (stars : list Star) (order : string)
  (reverse : bool) :
  (length stars <= 1)%nat ->
  sortItemOrder ToLower stars order reverse = Go.Ret stars.
Proof.
  intros Hlen.
  assert (sorted_stars ToLower stars order = stars) as Hs.
  { pose proof (sorted_stars_Permutation ToLower stars order) as Hp.
    destruct stars as [|s [|s' stars]]; simpl in Hlen; try lia.
    - now apply Permutation_nil in Hp.
    - now apply Permutation_length_1_inv in Hp. }
  destruct reverse.
  - rewrite sortItemOrder_reverse, Hs.
    destruct stars as [|s [|s' stars]]; simpl in Hlen; try lia; reflexivity.
  - now rewrite sortItemOrder_forward, Hs.
Qed.

End SorterExtrasWithSort.

(** X6: when no two stars of the input tie under the comparator of the key
    (ties are equal records at most), the output does not depend on what
    [sort.Slice] does with ties: any two sorts meeting the contract give the
    same list. *)
Theorem sortItemOrder_determined_without_ties (S1 S2 : SliceSort)
  (ToLower : string -> string) (stars : list Star) (order : string)
  (reverse : bool) :
  (forall less : Star -> Star -> bool,
     comparator ToLower order = Some less ->
     forall a b : Star, In a stars -> In b stars -> ties less a b -> a = b) ->
  @sortItemOrder ToLower S1 stars order reverse =
  @sortItemOrder ToLower S2 stars order reverse.
Proof.
  intros Hties.
  assert (@sorted_stars ToLower S1 stars order =
          @sorted_stars ToLower S2 stars order) as Hs.
  { destruct (comparator ToLower order) as [less|] eqn:Hc.
    - apply (sorted_by_unique less).
      + rewrite <- (@sorted_stars_Permutation ToLower S1).
        apply (@sorted_stars_Permutation ToLower S2).
      + apply (@sorted_stars_sorted ToLower S1 stars order less Hc).
      + apply (@sorted_stars_sorted ToLower S2 stars order less Hc).
      + intros a b Ha Hb. apply (Hties less eq_refl).
        * eapply Permutation_in; [symmetry; apply (@sorted_stars_Permutation ToLower S1)|exact Ha].
        * eapply Permutation_in; [symmetry; apply (@sorted_stars_Permutation ToLower S1)|exact Hb].
    - unfold sorted_stars. now rewrite Hc. }
  destruct reverse.
  - now rewrite !sortItemOrder_reverse, Hs.
  - now rewrite !sortItemOrder_forward, Hs.
Qed.

(** ** [getStarsPage] and the retrieval loop *)

Section RetrievalExtras.
Variable remote : string -> Z -> PageReply.
Variable user : string.

(** What a finished loop tells about the pages, from page [i] on: it made
    [m + 1] requests, the first [m] pages were fetched and non-empty, and the
    last one ended the loop. *)
Lemma fetchLoop_inversion (fuel : nat) :
  forall (i : nat) (stars : list Star) (requests : list Z)
         (res : Go.result (list Star)) (requests' : list Z),
    Z.of_nat (i + fuel) <= Go.max_int ->
    fetchLoop remote fuel user (Z.of_nat i) stars requests = Some (res, requests') ->
    exists m : nat,
      (m < fuel)%nat /\
      requests' = requests ++ map Z.of_nat (seq i (S m)) /\
      (forall k, (i <= k < i + m)%nat ->
         get_err (remote user (Z.of_nat k)) = false /\ page remote user k <> []) /\
      match res with
      | Go.Ret out =>
          out = stars ++ concat (map (page remote user) (seq i m)) /\
          get_err (remote user (Z.of_nat (i + m))) = false /\
          page remote user (i + m) = []
      | Go.Fatal => get_err (remote user (Z.of_nat (i + m))) = true
      | Go.Panic => False
      end.
Proof.
  induction fuel as [|fuel IH]; intros i stars requests res requests' Hmax H;
    [discriminate|].
  cbn [fetchLoop] in H. unfold getStarsPage in H.
  destruct (get_err (remote user (Z.of_nat i))) eqn:Hget.
  - injection H as <- <-. exists 0%nat. rewrite Nat.add_0_r.
    split; [lia|]. split; [reflexivity|]. split; [intros k Hk; lia|exact Hget].
  - destruct (decoded (remote user (Z.of_nat i))) as [|s l] eqn:Hdec.
    + injection H as <- <-. exists 0%nat. rewrite Nat.add_0_r.
      split; [lia|]. split; [reflexivity|]. split; [intros k Hk; lia|].
      split; [cbn; now rewrite app_nil_r|]. split; [exact Hget|exact Hdec].
    + cbn [length Z.eqb] in H.
      replace (Z.of_nat (S (length l)) =? 0) with false in H by (symmetry; apply Z.eqb_neq; lia).
      unfold Go.add in H. rewrite Go.wrap_int_id in H by int_range.
      replace (Z.of_nat i + 1) with (Z.of_nat (S i)) in H by lia.
      apply IH in H; [|lia].
      destruct H as (m & Hm & Hreq & Hfull & Hres).
      exists (S m). split; [lia|]. split; [|split].
      * rewrite Hreq, <- app_assoc. reflexivity.
      * intros k Hk. destruct (decide (k = i)) as [->|Hne].
        -- split; [exact Hget|]. unfold page. now rewrite Hdec.
        -- apply Hfull. lia.
      * replace (i + S m)%nat with (S i + m)%nat by lia.
        destruct res as [out| |]; [|exact Hres|exact Hres].
        destruct Hres as (Hout & Hlast). split; [|exact Hlast].
        rewrite Hout. cbn [seq map concat].
        change (page remote user i) with (decoded (remote user (Z.of_nat i))).
        rewrite Hdec. now rewrite <- app_assoc.
Qed.

(** X7: whatever the remote answers, a finished loop has requested the pages
    [1, 2, ..., n] in this order, each once, with [n >= 1], and it has not
    panicked. *)
Theorem fetchAll_requests_consecutive (fuel : nat)
  (res : Go.result (list Star)) (requests : list Z) :
  Z.of_nat fuel < Go.max_int ->
  fetchAll remote fuel user = Some (res, requests) ->
  requests = map Z.of_nat (seq 1 (length requests)) /\
  (1 <= length requests <= fuel)%nat /\
  res <> Go.Panic.
Proof.
  intros Hmax H. unfold fetchAll in H. change 1 with (Z.of_nat 1) in H.
  apply fetchLoop_inversion in H; [|lia].
  destruct H as (m & Hm & Hreq & _ & Hres). cbn [app] in Hreq.
  assert (length requests = S m) as Hlen
    by (rewrite Hreq, length_map, length_seq; reflexivity).
  rewrite Hlen. repeat split; [exact Hreq|lia|lia|].
  intros ->. exact Hres.
Qed.

(** X8: a loop that returns has got a non-empty page, without transport
    error, for every request but the last, an empty one for the last, and
    returns the concatenation of the former in page order; a loop that ends
    in the fatal exit has met the transport error on its last request. *)
Theorem fetchAll_inversion (fuel : nat)
  (res : Go.result (list Star)) (requests : list Z) :
  Z.of_nat fuel < Go.max_int ->
  fetchAll remote fuel user = Some (res, requests) ->
  let n := length requests in
  (forall k, (1 <= k < n)%nat ->
     get_err (remote user (Z.of_nat k)) = false /\ page remote user k <> []) /\
  match res with
  | Go.Ret stars =>
      stars = concat (map (page remote user) (seq 1 (n - 1))) /\
      get_err (remote user (Z.of_nat n)) = false /\
      page remote user n = []
  | Go.Fatal => get_err (remote user (Z.of_nat n)) = true
  | Go.Panic => False
  end.
Proof.
  intros Hmax H. unfold fetchAll in H. change 1 with (Z.of_nat 1) in H.
  apply fetchLoop_inversion in H; [|lia].
  destruct H as (m & Hm & Hreq & Hfull & Hres). cbn [app] in Hreq.
  assert (length requests = S m) as Hlen
    by (rewrite Hreq, length_map, length_seq; reflexivity).
  cbn zeta. rewrite Hlen. split.
  - intros k Hk. apply Hfull. lia.
  - replace (S m - 1)%nat with m by lia.
    change (S m) with (1 + m)%nat. exact Hres.
Qed.

(** The loop from page [i] on, when the pages [i .. i+m-1] are non-empty and
    [http.Get] fails on page [i+m]. *)
Lemma fetchLoop_until_failure (m : nat) :
  forall (i fuel : nat) (stars : list Star) (requests : list Z),
    Z.of_nat (i + m) <= Go.max_int ->
    (forall k, (i <= k < i + m)%nat ->
       get_err (remote user (Z.of_nat k)) = false /\ page remote user k <> []) ->
    get_err (remote user (Z.of_nat (i + m))) = true ->
    (m < fuel)%nat ->
    fetchLoop remote fuel user (Z.of_nat i) stars requests =
      Some (Go.Fatal, requests ++ map Z.of_nat (seq i (S m))).
Proof.
  induction m as [|m IH]; intros i fuel stars requests Hmax Hfull Hget Hfuel;
    (destruct fuel as [|fuel]; [lia|]).
  - rewrite Nat.add_0_r in *. cbn [fetchLoop].
    now rewrite getStarsPage_transport_failure by assumption.
  - destruct (Hfull i ltac:(lia)) as [Hgi Hpi].
    cbn [fetchLoop]. rewrite getStarsPage_nonempty by assumption.
    unfold Go.add. rewrite Go.wrap_int_id by int_range.
    replace (Z.of_nat i + 1) with (Z.of_nat (S i)) by lia.
    rewrite IH.
    + cbn [seq map]. now rewrite <- !app_assoc.
    + replace (S i + m)%nat with (i + S m)%nat by lia. exact Hmax.
    + intros k Hk. apply Hfull. lia.
    + replace (S i + m)%nat with (i + S m)%nat by lia. exact Hget.
    + lia.
Qed.

(** X10: the loop has no bound of its own: against a remote that answers
    every page with stars it never ends, whatever the number of iterations
    it is given. *)
Theorem fetchAll_endless_pages :
  (forall i : Z, get_err (remote user i) = false /\ decoded (remote user i) <> []) ->
  forall fuel : nat, fetchAll remote fuel user = None.
Proof.
  intros Hfull fuel. unfold fetchAll.
  generalize 1 (@nil Star) (@nil Z).
  induction fuel as [|fuel IH]; intros i stars requests; [reflexivity|].
  destruct (Hfull i) as [Hget Hdec].
  cbn [fetchLoop]. rewrite getStarsPage_nonempty by assumption. apply IH.
Qed.

End RetrievalExtras.

(** X9: a transport error is fatal wherever it strikes: when [http.Get]
    fails on page [N] after [N - 1] pages of stars, [run] ends in the fatal
    exit, whatever the terminal and the flags for order are; the stars
    fetched so far are not shown. *)
Theorem run_transport_failure_is_fatal (ToLower : string -> string)
  (sorter : SliceSort) (env : Env) (user : string) (N fuel : nat) :
  parse_err env = false -> Version (opt env) = false ->
  GithubUser env = Some user ->
  (1 <= N <= fuel)%nat -> Z.of_nat N <= Go.max_int ->
  (forall k, (1 <= k < N)%nat ->
     get_err (remote env user (Z.of_nat k)) = false /\
     page (remote env) user k <> []) ->
  get_err (remote env user (Z.of_nat N)) = true ->
  fetchAll (remote env) fuel user = Some (Go.Fatal, map Z.of_nat (seq 1 N)) /\
  @run ToLower sorter fuel env = Some Go.Fatal.
Proof.
  intros Hparse Hver Huser HN Hmax Hfull Hget.
  assert (fetchAll (remote env) fuel user =
          Some (Go.Fatal, map Z.of_nat (seq 1 N))) as Hfetch.
  { unfold fetchAll. change 1 with (Z.of_nat 1).
    replace N with (1 + (N - 1))%nat in Hmax, Hfull, Hget by lia.
    rewrite (fetchLoop_until_failure (remote env) user (N - 1) 1 fuel [] [])
      by (assumption || lia).
    cbn [app]. replace (S (N - 1)) with N by lia. reflexivity. }
  split; [exact Hfetch|].
  unfold run. now rewrite Hparse, Hver, Huser, Hfetch.
Qed.

(** ** The truncation loop *)

(** The three outcomes of one truncation, for a width a terminal can have. *)
Lemma truncateDescription_cases (width : Z) (d : string) :
  0 <= width <= Go.max_int ->
  truncateDescription width d =
    if width - 22 <? Go.len d then
      if width <? 25 then Go.Panic
      else Go.Ret (substring 0 (Z.to_nat (width - 25)) d ++ "...")%string
    else Go.Ret d.
Proof.
  intros Hw. unfold truncateDescription, Go.sub.
  rewrite !Go.wrap_int_id by int_range.
  destruct (width - 22 <? Go.len d) eqn:E; [|reflexivity].
  apply Z.ltb_lt in E.
  destruct (width <? 25) eqn:E25.
  - apply Z.ltb_lt in E25. now rewrite slice_to_negative by lia.
  - apply Z.ltb_ge in E25. now rewrite slice_to_in_range by lia.
Qed.

Lemma set_Description_same (s : Star) : set_Description (Description s) s = s.
Proof. now destruct s. Qed.

Lemma truncateStar_wide (W : Z) (s : Star) :
  25 <= W <= Go.max_int ->
  exists s' : Star,
    truncateStar W s = Go.Ret s' /\
    s' = set_Description (Description s') s /\
    Go.len (Description s') <= W - 22 /\
    (Go.len (Description s) <= W - 22 -> s' = s).
Proof.
  intros HW. unfold truncateStar.
  rewrite truncateDescription_cases by lia.
  destruct (W - 22 <? Go.len (Description s)) eqn:E.
  - apply Z.ltb_lt in E.
    destruct (W <? 25) eqn:E25; [apply Z.ltb_lt in E25; lia|].
    eexists. split; [reflexivity|]. split; [reflexivity|]. split; [|lia].
    cbn [Description set_Description]. rewrite Go.len_append.
    unfold Go.len at 1.
    rewrite substring_prefix_length by (unfold Go.len in E; lia).
    change (Go.len "...") with 3. lia.
  - apply Z.ltb_ge in E.
    exists s. split; [unfold Go.bind; now rewrite set_Description_same|].
    split; [now rewrite set_Description_same|].
    split; [exact E|reflexivity].
Qed.

(** X11: on a terminal of [width] columns the truncation loop panics exactly
    when the terminal is narrower than 25 columns and some star has a
    description longer than [width - 22] bytes; it never ends in the fatal
    exit. With no star to show, or on 22 to 24 columns with very short
    descriptions, a narrow terminal does no harm. *)
Theorem truncateAll_panics_iff (width : Z) (stars : list Star) :
  0 <= width <= Go.max_int ->
  (truncateAll width stars = Go.Panic <->
   width < 25 /\
   Exists (fun s => width - 22 < Go.len (Description s)) stars) /\
  truncateAll width stars <> Go.Fatal.
Proof.
  intros Hw. induction stars as [|s stars [IHp IHf]].
  - split; [|discriminate]. split; [discriminate|].
    intros [_ H]. inversion H.
  - cbn [truncateAll]. unfold truncateStar.
    rewrite truncateDescription_cases by exact Hw.
    destruct (width - 22 <? Go.len (Description s)) eqn:E.
    + apply Z.ltb_lt in E. destruct (width <? 25) eqn:E25.
      * apply Z.ltb_lt in E25. cbn [Go.bind].
        split; [|discriminate]. split; [|reflexivity].
        intros _. split; [exact E25|]. now constructor.
      * apply Z.ltb_ge in E25. cbn [Go.bind].
        destruct (truncateAll width stars) as [rest| |]; cbn [Go.bind].
        -- split; [|discriminate]. split; [discriminate|]. intros [H _]. lia.
        -- now contradiction IHf.
        -- split; [|discriminate]. split; [|reflexivity]. intros _.
           destruct IHp as [IHp _]. destruct (IHp eq_refl) as [H _]. lia.
    + apply Z.ltb_ge in E. cbn [Go.bind].
      destruct (truncateAll width stars) as [rest| |]; cbn [Go.bind].
      * split; [|discriminate]. split; [discriminate|].
        intros [H25 Hex]. inversion Hex; subst; [lia|].
        assert (Go.Ret rest = @Go.Panic (list Star)) as C
          by (apply IHp; split; assumption).
        discriminate C.
      * now contradiction IHf.
      * split; [|discriminate]. split; [|reflexivity]. intros _.
        destruct IHp as [IHp _]. destruct (IHp eq_refl) as [H25 Hex].
        split; [exact H25|]. now constructor 2.
Qed.

(** X12: on a terminal of at least 25 columns the loop returns as many stars
    as it was given, in the same order; each differs from its original in
    the description at most, and every description then fits in [W - 22]
    bytes. *)
Theorem truncateAll_fits (W : Z) (stars : list Star) :
  25 <= W <= Go.max_int ->
  exists out : list Star,
    truncateAll W stars = Go.Ret out /\
    Forall2 (fun s s' => s' = set_Description (Description s') s /\
                         Go.len (Description s') <= W - 22)
            stars out.
Proof.
  intros HW. induction stars as [|s stars (out & Hout & Hall)].
  - exists []. split; [reflexivity|constructor].
  - destruct (truncateStar_wide W s HW) as (s' & Hs' & Hset & Hlen & _).
    exists (s' :: out). split.
    + cbn [truncateAll]. rewrite Hs'. cbn [Go.bind]. now rewrite Hout.
    + constructor; [split; assumption|exact Hall].
Qed.

(** X13: on a terminal of at least 25 columns truncating is idempotent: a
    second pass over the truncated stars changes nothing, the marker is not
    appended twice. *)
Theorem truncateAll_idempotent (W : Z) (stars : list Star) :
  25 <= W <= Go.max_int ->
  exists out : list Star,
    truncateAll W stars = Go.Ret out /\
    truncateAll W out = Go.Ret out.
Proof.
  intros HW. induction stars as [|s stars (out & Hout & Hagain)].
  - exists []. split; reflexivity.
  - destruct (truncateStar_wide W s HW) as (s' & Hs' & _ & Hlen & _).
    destruct (truncateStar_wide W s' HW) as (s'' & Hs'' & _ & _ & Hsame).
    rewrite (Hsame Hlen) in Hs''.
    exists (s' :: out). split.
    + cbn [truncateAll]. rewrite Hs'. cbn [Go.bind]. now rewrite Hout.
    + cbn [truncateAll]. rewrite Hs''. cbn [Go.bind]. now rewrite Hagain.
Qed.

(** ** [searcher] *)

Lemma Match_refl (s : string) : Match s s = true.
Proof.
  induction s as [|c s IH]; [reflexivity|].
  rewrite Match_cons. now rewrite Ascii.eqb_refl.
Qed.

Section SearcherExtras.
Variable ToLower : string -> string.

(** X14: [searcher] panics exactly when the index is outside the slice
    (negative, or not below its length), whatever the query; in particular
    on every index when there is no star. It never ends in the fatal exit. *)
Theorem searcher_panics_iff (stars : list Star) (input : string) (index : Z) :
  (searcher ToLower stars input index = Go.Panic <->
   index < 0 \/ Z.of_nat (length stars) <= index) /\
  searcher ToLower stars input index <> Go.Fatal.
Proof.
  unfold searcher.
  destruct (index <? 0) eqn:E1; cbn [orb].
  - apply Z.ltb_lt in E1. split; [|discriminate]. split; [now left|reflexivity].
  - apply Z.ltb_ge in E1.
    destruct (Z.of_nat (length stars) <=? index) eqn:E2.
    + apply Z.leb_le in E2. split; [|discriminate]. split; [now right|reflexivity].
    + apply Z.leb_gt in E2.
      destruct (lookup_lt_is_Some_2 stars (Z.to_nat index) ltac:(lia)) as [star ->].
      split; [|discriminate]. split; [discriminate|lia].
Qed.

(** X15: the full name of a candidate, typed as it is, always shows this
    candidate, whatever the lower-casing does to it. *)
Theorem searcher_accepts_full_name (stars : list Star) (index : nat)
  (star : Star) :
  stars !! index = Some star ->
  searcher ToLower stars (FullName star) (Z.of_nat index) = Go.Ret true.
Proof.
  intros H. rewrite (searcher_in_range ToLower _ _ _ _ H).
  now rewrite Match_refl.
Qed.

End SearcherExtras.

(** ** [run] *)

Section RunExtras.
Variable ToLower : string -> string.
Context {slice_sort : SliceSort}.

Lemma sortItemOrder_returns (stars : list Star) (order : string) (flag : bool) :
  exists out : list Star,
    sortItemOrder ToLower stars order flag = Go.Ret out /\
    Permutation stars out.
Proof.
  destruct flag.
  - eexists. split; [apply sortItemOrder_reverse|].
    rewrite reverse_Permutation. apply sorted_stars_Permutation.
  - eexists. split; [apply sortItemOrder_forward|].
    apply sorted_stars_Permutation.
Qed.

(** X16: when [run] opens the prompt, the items are the stars the loop has
    fetched, all of them and each once: a permutation of the fetched list
    after truncation at the terminal width. *)
Theorem run_prompt_shows_fetched_stars (fuel : nat) (env : Env)
  (items : list Star) :
  run ToLower fuel env = Some (Go.Ret (Prompt items)) ->
  exists (user : string) (width : Z) (stars truncated : list Star)
         (requests : list Z),
    GithubUser env = Some user /\
    terminal_Width env = Some width /\
    fetchAll (remote env) fuel user = Some (Go.Ret stars, requests) /\
    truncateAll (Go.int_of_uint width) stars = Go.Ret truncated /\
    Permutation truncated items /\
    length items = length stars.
Proof.
  unfold run. intros H.
  destruct (parse_err env); [discriminate|].
  destruct (Version (opt env)); [discriminate|].
  destruct (GithubUser env) as [user|] eqn:Huser; [|discriminate].
  destruct (fetchAll (remote env) fuel user) as [[[stars| |] requests]|] eqn:Hfetch;
    try discriminate.
  destruct (terminal_Width env) as [width|] eqn:Hwidth; [|discriminate].
  destruct (truncateAll (Go.int_of_uint width) stars) as [truncated| |] eqn:Ht;
    try discriminate.
  cbn [Go.bind] in H.
  destruct (sortItemOrder_returns truncated
              (Order (opt env)) (Reverse (opt env))) as (out & Hout & Hperm).
  rewrite Hout in H. cbn [Go.bind] in H. injection H as <-.
  exists user, width, stars, truncated, requests.
  split; [reflexivity|]. split; [reflexivity|]. split; [exact Hfetch|].
  split; [exact Ht|]. split; [exact Hperm|].
  rewrite <- (Permutation_length Hperm).
  clear - Ht. revert truncated Ht.
  induction stars as [|s stars IH]; intros truncated Ht.
  - injection Ht as <-. reflexivity.
  - cbn [truncateAll] in Ht.
    destruct (truncateStar (Go.int_of_uint width) s); try discriminate.
    cbn [Go.bind] in Ht.
    destruct (truncateAll (Go.int_of_uint width) stars); try discriminate.
    cbn [Go.bind] in Ht. injection Ht as <-. cbn [length].
    now rewrite (IH _ eq_refl).
Qed.

(** X17: before the prompt [run] returns three codes only: 2 when the flags
    did not parse, whatever else is set; 0 for the version flag, without any
    look at the account or the terminal; 1 when the stars were all fetched
    and the terminal does not tell its width. *)
Theorem run_exit_codes (fuel : nat) (env : Env) (code : Z) :
  run ToLower fuel env = Some (Go.Ret (Exit code)) ->
  (code = 2 /\ parse_err env = true) \/
  (code = 0 /\ parse_err env = false /\ Version (opt env) = true) \/
  (code = 1 /\ parse_err env = false /\ Version (opt env) = false /\
   terminal_Width env = None /\
   exists (user : string) (stars : list Star) (requests : list Z),
     GithubUser env = Some user /\
     fetchAll (remote env) fuel user = Some (Go.Ret stars, requests)).
Proof.
  unfold run. intros H.
  destruct (parse_err env); [injection H as <-; now left|].
  destruct (Version (opt env)); [injection H as <-; right; now left|].
  destruct (GithubUser env) as [user|] eqn:Huser; [|discriminate].
  destruct (fetchAll (remote env) fuel user) as [[[stars| |] requests]|] eqn:Hfetch;
    try discriminate.
  destruct (terminal_Width env) as [width|].
  - destruct (truncateAll (Go.int_of_uint width) stars) as [truncated| |];
      try discriminate.
    cbn [Go.bind] in H.
    destruct (sortItemOrder ToLower truncated (Order (opt env))
                (Reverse (opt env))); discriminate.
  - injection H as <-. right. right.
    split; [reflexivity|]. split; [reflexivity|]. split; [reflexivity|].
    split; [reflexivity|]. exists user, stars, requests.
    split; [reflexivity|exact Hfetch].
Qed.

End RunExtras.

(** ** The further properties at work on the samples *)

(** A remote whose second page cannot be fetched, one that never runs out
    of stars, and a terminal that does not tell its width. *)
Definition failing_remote (user : string) (page : Z) : PageReply :=
  if page =? 1 then ok_reply [star_a; star_b]
  else {| get_err := true; read_err := false; decoded := []; decode_err := false |}.

Definition endless_remote (user : string) (page : Z) : PageReply :=
  ok_reply [star_a].

Definition blind_env (remote : string -> Z -> PageReply) : Env :=
  {| parse_err := false;
     opt := {| Order := "created-at"; Reverse := true; Version := false |};
     GithubUser := Some "octo";
     remote := remote;
     terminal_Width := None |}.

Lemma sortItemOrder_unknown_key_witness :
  @sortItemOrder ToLower_ascii stable_SliceSort [star_a; star_b; star_c]
    "Author-Name" true
  = Go.Ret (if true then reverse [star_a; star_b; star_c]
            else [star_a; star_b; star_c]).
Proof.
  apply (@sortItemOrder_unknown_key ToLower_ascii stable_SliceSort
           [star_a; star_b; star_c] "Author-Name" true); discriminate.
Defined.

Lemma sortItemOrder_reverse_ordered_witness :
  exists out : list Star,
    @sortItemOrder ToLower_ascii stable_SliceSort [star_a; star_b; star_c]
      "created-at" true = Go.Ret out /\
    Permutation [star_a; star_b; star_c] out /\
    StronglySorted (fun a b => less_created_at a b = false) out.
Proof.
  apply (@sortItemOrder_reverse_ordered ToLower_ascii stable_SliceSort
           [star_a; star_b; star_c] "created-at" less_created_at).
  reflexivity.
Defined.

Lemma sortItemOrder_short_witness :
  @sortItemOrder ToLower_ascii go118_SliceSort [star_a] "author-name" true
  = Go.Ret [star_a].
Proof.
  apply (@sortItemOrder_short ToLower_ascii go118_SliceSort
           [star_a] "author-name" true).
  simpl. lia.
Defined.

Lemma sortItemOrder_determined_without_ties_witness :
  @sortItemOrder ToLower_ascii stable_SliceSort [star_a; star_b; star_c]
    "repository-name" true
  = @sortItemOrder ToLower_ascii go118_SliceSort [star_a; star_b; star_c]
    "repository-name" true.
Proof.
  apply (sortItemOrder_determined_without_ties stable_SliceSort
           go118_SliceSort ToLower_ascii [star_a; star_b; star_c]
           "repository-name" true).
  intros less Hc.
  change (comparator ToLower_ascii "repository-name")
    with (Some (less_repository_name ToLower_ascii)) in Hc.
  injection Hc as <-.
  intros a b Ha Hb [H1 H2]. simpl in Ha, Hb.
  destruct Ha as [<-|[<-|[<-|[]]]]; destruct Hb as [<-|[<-|[<-|[]]]];
    try reflexivity; vm_compute in H1, H2; discriminate.
Defined.

Lemma fetchAll_requests_consecutive_witness :
  [1; 2; 3] = map Z.of_nat (seq 1 (length [1; 2; 3])) /\
  (1 <= length [1; 2; 3] <= 5)%nat /\
  Go.Ret [star_a; star_b; star_c] <> Go.Panic.
Proof.
  apply (fetchAll_requests_consecutive sample_remote "octo" 5
           (Go.Ret [star_a; star_b; star_c]) [1; 2; 3]).
  - unfold Go.max_int. lia.
  - reflexivity.
Defined.

Lemma fetchAll_inversion_witness :
  (forall k, (1 <= k < length [1; 2])%nat ->
     get_err (failing_remote "octo" (Z.of_nat k)) = false /\
     page failing_remote "octo" k <> []) /\
  get_err (failing_remote "octo" (Z.of_nat (length [1; 2]))) = true.
Proof.
  apply (fetchAll_inversion failing_remote "octo" 5 Go.Fatal [1; 2]).
  - unfold Go.max_int. lia.
  - reflexivity.
Defined.

Lemma run_transport_failure_is_fatal_witness :
  fetchAll (remote (sample_env failing_remote 80)) 5 "octo" =
    Some (Go.Fatal, map Z.of_nat (seq 1 2)) /\
  @run ToLower_ascii stable_SliceSort 5 (sample_env failing_remote 80) =
    Some Go.Fatal.
Proof.
  apply (run_transport_failure_is_fatal ToLower_ascii stable_SliceSort
           (sample_env failing_remote 80) "octo" 2 5).
  - reflexivity.
  - reflexivity.
  - reflexivity.
  - lia.
  - unfold Go.max_int. lia.
  - intros k Hk. assert (k = 1)%nat as -> by lia.
    split; [reflexivity|discriminate].
  - reflexivity.
Defined.

Lemma fetchAll_endless_pages_witness :
  fetchAll endless_remote 1000 "octo" = None.
Proof.
  apply (fun H => fetchAll_endless_pages endless_remote "octo" H 1000).
  intros i. split; [reflexivity|discriminate].
Defined.

Lemma truncateAll_panics_iff_witness :
  (truncateAll 24 [star_b; star_a] = Go.Panic <->
   24 < 25 /\
   Exists (fun s => 24 - 22 < Go.len (Description s)) [star_b; star_a]) /\
  truncateAll 24 [star_b; star_a] <> Go.Fatal.
Proof.
  apply (truncateAll_panics_iff 24 [star_b; star_a]).
  unfold Go.max_int. lia.
Defined.

Lemma truncateAll_fits_witness :
  exists out : list Star,
    truncateAll 30 [star_a; star_b; star_c] = Go.Ret out /\
    Forall2 (fun s s' => s' = set_Description (Description s') s /\
                         Go.len (Description s') <= 30 - 22)
            [star_a; star_b; star_c] out.
Proof.
  apply (truncateAll_fits 30 [star_a; star_b; star_c]).
  unfold Go.max_int. lia.
Defined.

Lemma truncateAll_idempotent_witness :
  exists out : list Star,
    truncateAll 30 [star_a; star_b; star_c] = Go.Ret out /\
    truncateAll 30 out = Go.Ret out.
Proof.
  apply (truncateAll_idempotent 30 [star_a; star_b; star_c]).
  unfold Go.max_int. lia.
Defined.

Lemma searcher_accepts_full_name_witness :
  searcher ToLower_ascii [star_a; star_b; star_c] (FullName star_b)
           (Z.of_nat 1) = Go.Ret true.
Proof.
  apply (searcher_accepts_full_name ToLower_ascii
           [star_a; star_b; star_c] 1 star_b).
  reflexivity.
Defined.

Lemma run_prompt_shows_fetched_stars_witness :
  exists (user : string) (width : Z) (stars truncated : list Star)
         (requests : list Z),
    GithubUser (sample_env sample_remote 30) = Some user /\
    terminal_Width (sample_env sample_remote 30) = Some width /\
    fetchAll (remote (sample_env sample_remote 30)) 5 user =
      Some (Go.Ret stars, requests) /\
    truncateAll (Go.int_of_uint width) stars = Go.Ret truncated /\
    Permutation truncated
      [star_a; star_b; set_Description "anoth..." star_c] /\
    length [star_a; star_b; set_Description "anoth..." star_c] = length stars.
Proof.
  apply (@run_prompt_shows_fetched_stars ToLower_ascii stable_SliceSort 5
           (sample_env sample_remote 30)
           [star_a; star_b; set_Description "anoth..." star_c]).
  vm_compute. reflexivity.
Defined.

Lemma run_exit_codes_witness :
  (1 = 2 /\ parse_err (blind_env sample_remote) = true) \/
  (1 = 0 /\ parse_err (blind_env sample_remote) = false /\
   Version (opt (blind_env sample_remote)) = true) \/
  (1 = 1 /\ parse_err (blind_env sample_remote) = false /\
   Version (opt (blind_env sample_remote)) = false /\
   terminal_Width (blind_env sample_remote) = None /\
   exists (user : string) (stars : list Star) (requests : list Z),
     GithubUser (blind_env sample_remote) = Some user /\
     fetchAll (remote (blind_env sample_remote)) 5 user =
       Some (Go.Ret stars, requests)).
Proof.
  apply (@run_exit_codes ToLower_ascii stable_SliceSort 5
           (blind_env sample_remote) 1).
  reflexivity.
Defined.
